(** * OcctImportDemo: a shallow embedding of the viewer component

    The component ([occt-vue-demo/src/components/OcctImportDemo.vue], and its
    Options-API twin) reads a CAD file, dispatches on the file extension to
    one of the three readers of occt-import-js, turns every mesh record of the
    result into a Three.js mesh, fits the camera to the union bounding box and
    releases the GPU objects on teardown.

    JavaScript numbers are idealised as exact rationals ([Q]); the two
    transcendental ingredients of the camera fit, [Math.tan] and [Math.PI],
    are variables of the development, and a camera position that
    [OrbitControls.update] has moved onto a distance limit is kept as a
    term. *)

From Stdlib Require Import List String Ascii Bool Arith ZArith QArith Qminmax Qabs Lia Lqa.
Import ListNotations.

Set Implicit Arguments.

(** ** JavaScript strings *)

Module JS.

(** [String.prototype.toLowerCase] on the code units [A]..[Z].  The only
    non-ASCII code points whose lower-case form contains an ASCII letter
    (U+0130, U+212A) cannot complete one of the five extensions tested by
    the component, so the other code units are left as they are. *)
Definition toLowerCase_unit (c : ascii) : ascii :=
  let n := nat_of_ascii c in
  if ((65 <=? n) && (n <=? 90))%nat then ascii_of_nat (n + 32) else c.

Fixpoint toLowerCase (s : string) : string :=
  match s with
  | EmptyString => EmptyString
  | String c rest => String (toLowerCase_unit c) (toLowerCase rest)
  end.

(** [s.endsWith(suffix)]. *)
Definition endsWith (s suffix : string) : bool :=
  let n := String.length s in
  let m := String.length suffix in
  if (m <=? n)%nat then String.eqb (substring (n - m) m s) suffix else false.

(** [x || fallback] for an optional string: [undefined] and the empty
    string are falsy. *)
Definition or_else (x : option string) (fallback : string) : string :=
  match x with
  | None => fallback
  | Some EmptyString => fallback
  | Some s => s
  end.

(** [prefix + x] where [x] may be [undefined]. *)
Definition concat (prefix : string) (x : option string) : string :=
  (prefix ++ match x with Some s => s | None => "undefined" end)%string.

(** A thrown value whose [message] can be read and appended to a string,
    seen through that property: [e.message] is a string for [Error] objects
    and [undefined] for most other values. *)
Record Thrown := { message : option string }.

Definition TypeError (what : string) : Thrown := {| message := Some what |}.

(** What a [throw], or a rejected promise, carries: any value.  On some
    values ['...' + e.message] throws in its turn: on [null] and [undefined]
    (a [TypeError]), and on an object whose [message] cannot be read or
    converted to a string ([raised] is what that throws). *)
Inductive Exception :=
| Unreadable (raised : Exception)
| Readable (e : Thrown).

Definition null : Exception :=
  Unreadable (Readable (TypeError "Cannot read properties of null (reading 'message')")).

Definition undefined : Exception :=
  Unreadable
    (Readable (TypeError "Cannot read properties of undefined (reading 'message')")).

End JS.

Coercion JS.Readable : JS.Thrown >-> JS.Exception.

(** ** The result of occt-import-js *)

Module Occt.

(** [{ array: [...] }]; the [array] property may be missing. *)
Record Buffer (A : Type) := { array : option (list A) }.

Record Attributes := {
  position : option (Buffer Q);
  normal : option (Buffer Q)
}.

Record MeshRecord := {
  name : option string;
  attributes : option Attributes;
  index : option (Buffer Z);
  color : option (list Z)
}.

Record ImportResult := {
  success : bool;
  error : option string;
  meshes : option (list MeshRecord)
}.

Inductive ImportEntry := ReadStepFile | ReadIgesFile | ReadBrepFile.

(** [const params = { linearUnit: 'millimeter', ... }] *)
Record Params := {
  linearUnit : string;
  linearDeflectionType : string;
  linearDeflection : Q;
  angularDeflection : Q
}.

(** What a call of an import entry point does. *)
Inductive ImportOutcome :=
| Returned (r : ImportResult)
| Raised (e : JS.Exception).

(** The module object the factory resolves to. *)
Record Module_ := {
  entry : ImportEntry -> list Byte.byte -> Params -> ImportOutcome
}.

(** What awaiting [occtimportjs({ locateFile })] does. *)
Inductive InitOutcome :=
| Resolved (occt : Module_)
| Rejected (e : JS.Exception).

End Occt.

(** ** The Three.js objects the component builds *)

Module THREE.

Record Vector3 := { x : Q; y : Q; z : Q }.

Definition vec (a b c : Q) : Vector3 := {| x := a; y := b; z := c |}.

(** [new Float32Array(array)]: one element per element of the source (the
    rounding to single precision is not modelled). *)
Definition Float32Array := list Q.
Definition new_Float32Array (src : list Q) : Float32Array := src.

(** [new Uint16Array(array)] and [new Uint32Array(array)] store every
    (integer) element modulo two to the element width. *)
Inductive IndexArray :=
| Uint16Array (elements : list Z)
| Uint32Array (elements : list Z).

Definition new_Uint16Array (src : list Z) : IndexArray :=
  Uint16Array (map (fun v => v mod 2 ^ 16)%Z src).
Definition new_Uint32Array (src : list Z) : IndexArray :=
  Uint32Array (map (fun v => v mod 2 ^ 32)%Z src).

Definition elements (a : IndexArray) : list Z :=
  match a with Uint16Array l => l | Uint32Array l => l end.

Definition bits (a : IndexArray) : Z :=
  match a with Uint16Array _ => 16%Z | Uint32Array _ => 32%Z end.

(** [setAttribute('normal', ...)] or [computeVertexNormals()]. *)
Inductive Normals :=
| NormalAttribute (a : Float32Array)
| ComputedVertexNormals.

Record BufferGeometry := {
  geometry_id : nat;
  position_attribute : Float32Array;
  normals : Normals;
  index_attribute : IndexArray
}.

Inductive Color :=
| ColorRGB (r g b : Q)
| ColorHex (hex : Z).

Inductive Side := FrontSide | BackSide | DoubleSide.

Record MeshStandardMaterial := {
  material_id : nat;
  color : Color;
  side : Side
}.

(** The [material] property of an object: absent, one material or an
    array of materials. *)
Inductive MaterialSlot :=
| NoMaterial
| OneMaterial (m : MeshStandardMaterial)
| MaterialArray (ms : list MeshStandardMaterial).

Record Mesh := {
  geometry : option BufferGeometry;
  material : MaterialSlot
}.

(** *** Box3 *)

(** An axis-aligned box; [None] is the empty box of [new THREE.Box3()]. *)
Definition Box3 := option (Vector3 * Vector3).

Definition empty_box : Box3 := None.

Definition isEmpty (b : Box3) : bool :=
  match b with None => true | Some _ => false end.

Definition vmin (a b : Vector3) : Vector3 :=
  vec (Qmin (x a) (x b)) (Qmin (y a) (y b)) (Qmin (z a) (z b)).
Definition vmax (a b : Vector3) : Vector3 :=
  vec (Qmax (x a) (x b)) (Qmax (y a) (y b)) (Qmax (z a) (z b)).

Definition expandByPoint (b : Box3) (p : Vector3) : Box3 :=
  match b with
  | None => Some (p, p)
  | Some (lo, hi) => Some (vmin lo p, vmax hi p)
  end.

Definition union (a b : Box3) : Box3 :=
  match a, b with
  | None, _ => b
  | _, None => a
  | Some (lo1, hi1), Some (lo2, hi2) => Some (vmin lo1 lo2, vmax hi1 hi2)
  end.

(** The vertices of a position attribute of item size 3 (numbers left over
    after the last whole vertex are not one). *)
Fixpoint vertices (a : Float32Array) : list Vector3 :=
  match a with
  | px :: py :: pz :: rest => vec px py pz :: vertices rest
  | _ => []
  end.

(** [box.setFromObject(mesh)]: the box of the vertices of the mesh (the
    mesh and the model group carry the identity transform). *)
Definition setFromObject (m : Mesh) : Box3 :=
  match geometry m with
  | None => empty_box
  | Some g => fold_left expandByPoint (vertices (position_attribute g)) empty_box
  end.

(** [getCenter] and [getSize] answer the zero vector on the empty box. *)
Definition getCenter (b : Box3) : Vector3 :=
  match b with
  | None => vec 0 0 0
  | Some (lo, hi) =>
      vec ((x lo + x hi) * (1 # 2)) ((y lo + y hi) * (1 # 2)) ((z lo + z hi) * (1 # 2))
  end.

Definition getSize (b : Box3) : Vector3 :=
  match b with
  | None => vec 0 0 0
  | Some (lo, hi) => vec (x hi - x lo) (y hi - y lo) (z hi - z lo)
  end.

(** *** OrbitControls *)

(** The two limits the component gives its controls: [initThreeDScene] sets
    [controls.minDistance = 1] and [controls.maxDistance = 500] right after
    the only [new OrbitControls], and nothing changes them afterwards. *)
Definition minDistance : Q := 1.
Definition maxDistance : Q := 500.

Record OrbitControls := {
  target : Vector3;
  enableDamping : bool;
  dampingFactor : Q;
  screenSpacePanning : bool
}.

(** Where a camera is: at a point with rational coordinates, or where
    [controls.update()] has moved it.  [Orbited t p] is the point at which
    [update], for the target [t], puts a camera that was at [p]: on the
    sphere around [t] whose radius is the distance from [t] to [p] clamped
    to [[minDistance, maxDistance]], under the angles of [p - t] (the
    polar angle kept [1e-6] away from the poles).  Its coordinates are
    not rational in general, so it is kept as it is. *)
Inductive Position3 :=
| At (v : Vector3)
| Orbited (t : Vector3) (p : Position3).

(** [update] writes the offset from the target in spherical coordinates,
    clamps the radius and the polar angle and writes the position back.
    With no pointer input in between it gives the position back when the
    distance is within the limits and the polar angle [phi] is within
    [[1e-6, pi - 1e-6]], which holds as soon as [cos^2 phi <= 1 - 1e-12]. *)
Definition within_limits (t v : Vector3) : bool :=
  let ox := x v - x t in
  let oy := y v - y t in
  let oz := z v - z t in
  let q := ox * ox + oy * oy + oz * oz in
  Qle_bool (minDistance * minDistance) q
  && Qle_bool q (maxDistance * maxDistance)
  && Qle_bool (oy * oy * 1000000000000) (q * 999999999999).

(** Where [update], for the target [t], leaves a camera that was at [p]. *)
Definition orbit (t : Vector3) (p : Position3) : Position3 :=
  match p with
  | At v => if within_limits t v then p else Orbited t p
  | Orbited _ _ => Orbited t p
  end.


(** [fov] is in degrees; [lookAt] is the point the camera was last aimed
    at, if any. *)
Record PerspectiveCamera := {
  fov : Q;
  aspect : Q;
  near : Q;
  far : Q;
  position : Position3;
  lookAt : option Vector3
}.

Inductive Light :=
| AmbientLight (hex : Z) (intensity : Q)
| DirectionalLight (hex : Z) (intensity : Q).

Record Scene := { background : Z; lights : list Light }.

Record WebGLRenderer := { antialias : bool }.

Record Group := { children : list Mesh }.

End THREE.

Coercion THREE.At : THREE.Vector3 >-> THREE.Position3.

(** ** The page *)

Module DOM.

Record File := { name : string }.

(** The [<canvas ref="threeCanvas">] element. *)
Record Canvas := { clientWidth : Q; clientHeight : Q }.

End DOM.

(** ** Observable effects *)

(** Calls into the console, the import library, the browser and Three.js, in
    the order the component makes them. *)
Inductive Event :=
| ConsoleLog (text : string)
| ConsoleWarn (text : string)
| ConsoleError (text : string)
| OcctInit
| OcctImport (f : Occt.ImportEntry)
| RequestAnimationFrame (handle : nat)
| CancelAnimationFrame (handle : nat)
| RendererRender
| RendererDispose
| ControlsUpdate
| ControlsDispose
| GeometryDispose (id : nat)
| MaterialDispose (id : nat)
| RemoveResizeListener.

(** The two scripts of the component: [<script setup>] and the Options API. *)
Inductive Variant := ScriptSetup | OptionsApi.

(** ** Component state *)

(** The refs of the component, the five Three.js variables, the allocator of
    object identities and the trace of effects.  The scene's only group is the
    object held by [modelGroup]: [initThreeDScene] creates both and adds the
    group to the scene, and both references are dropped together. *)
Record State := {
  selectedFile : option DOM.File;
  fileContent : option (list Byte.byte);
  loading : bool;
  result : option Occt.ImportResult;
  error : option string;
  animationFrameId : option nat;
  threeCanvas : option DOM.Canvas;
  scene : option THREE.Scene;
  camera : option THREE.PerspectiveCamera;
  renderer : option THREE.WebGLRenderer;
  controls : option THREE.OrbitControls;
  modelGroup : option THREE.Group;
  next_id : nat;
  trace : list Event
}.

Definition set_loading (v : bool) (st : State) : State :=
  {| selectedFile := selectedFile st; fileContent := fileContent st; loading := v;
     result := result st; error := error st; animationFrameId := animationFrameId st;
     threeCanvas := threeCanvas st; scene := scene st; camera := camera st; renderer :=
     renderer st; controls := controls st; modelGroup := modelGroup st; next_id :=
     next_id st; trace := trace st |}.

Definition set_result (v : option Occt.ImportResult) (st : State) : State :=
  {| selectedFile := selectedFile st; fileContent := fileContent st; loading := loading
     st; result := v; error := error st; animationFrameId := animationFrameId st;
     threeCanvas := threeCanvas st; scene := scene st; camera := camera st; renderer :=
     renderer st; controls := controls st; modelGroup := modelGroup st; next_id :=
     next_id st; trace := trace st |}.

Definition set_error (v : option string) (st : State) : State :=
  {| selectedFile := selectedFile st; fileContent := fileContent st; loading := loading
     st; result := result st; error := v; animationFrameId := animationFrameId st;
     threeCanvas := threeCanvas st; scene := scene st; camera := camera st; renderer :=
     renderer st; controls := controls st; modelGroup := modelGroup st; next_id :=
     next_id st; trace := trace st |}.

Definition set_animationFrameId (v : option nat) (st : State) : State :=
  {| selectedFile := selectedFile st; fileContent := fileContent st; loading := loading
     st; result := result st; error := error st; animationFrameId := v; threeCanvas :=
     threeCanvas st; scene := scene st; camera := camera st; renderer := renderer st;
     controls := controls st; modelGroup := modelGroup st; next_id := next_id st; trace
     := trace st |}.

Definition set_threeCanvas (v : option DOM.Canvas) (st : State) : State :=
  {| selectedFile := selectedFile st; fileContent := fileContent st; loading := loading
     st; result := result st; error := error st; animationFrameId := animationFrameId
     st; threeCanvas := v; scene := scene st; camera := camera st; renderer := renderer
     st; controls := controls st; modelGroup := modelGroup st; next_id := next_id st;
     trace := trace st |}.

Definition set_scene (v : option THREE.Scene) (st : State) : State :=
  {| selectedFile := selectedFile st; fileContent := fileContent st; loading := loading
     st; result := result st; error := error st; animationFrameId := animationFrameId
     st; threeCanvas := threeCanvas st; scene := v; camera := camera st; renderer :=
     renderer st; controls := controls st; modelGroup := modelGroup st; next_id :=
     next_id st; trace := trace st |}.

Definition set_camera (v : option THREE.PerspectiveCamera) (st : State) : State :=
  {| selectedFile := selectedFile st; fileContent := fileContent st; loading := loading
     st; result := result st; error := error st; animationFrameId := animationFrameId
     st; threeCanvas := threeCanvas st; scene := scene st; camera := v; renderer :=
     renderer st; controls := controls st; modelGroup := modelGroup st; next_id :=
     next_id st; trace := trace st |}.

Definition set_renderer (v : option THREE.WebGLRenderer) (st : State) : State :=
  {| selectedFile := selectedFile st; fileContent := fileContent st; loading := loading
     st; result := result st; error := error st; animationFrameId := animationFrameId
     st; threeCanvas := threeCanvas st; scene := scene st; camera := camera st; renderer
     := v; controls := controls st; modelGroup := modelGroup st; next_id := next_id st;
     trace := trace st |}.

Definition set_controls (v : option THREE.OrbitControls) (st : State) : State :=
  {| selectedFile := selectedFile st; fileContent := fileContent st; loading := loading
     st; result := result st; error := error st; animationFrameId := animationFrameId
     st; threeCanvas := threeCanvas st; scene := scene st; camera := camera st; renderer
     := renderer st; controls := v; modelGroup := modelGroup st; next_id := next_id st;
     trace := trace st |}.

Definition set_modelGroup (v : option THREE.Group) (st : State) : State :=
  {| selectedFile := selectedFile st; fileContent := fileContent st; loading := loading
     st; result := result st; error := error st; animationFrameId := animationFrameId
     st; threeCanvas := threeCanvas st; scene := scene st; camera := camera st; renderer
     := renderer st; controls := controls st; modelGroup := v; next_id := next_id st;
     trace := trace st |}.

Definition set_next_id (v : nat) (st : State) : State :=
  {| selectedFile := selectedFile st; fileContent := fileContent st; loading := loading
     st; result := result st; error := error st; animationFrameId := animationFrameId
     st; threeCanvas := threeCanvas st; scene := scene st; camera := camera st; renderer
     := renderer st; controls := controls st; modelGroup := modelGroup st; next_id := v;
     trace := trace st |}.

Definition set_trace (v : list Event) (st : State) : State :=
  {| selectedFile := selectedFile st; fileContent := fileContent st; loading := loading
     st; result := result st; error := error st; animationFrameId := animationFrameId
     st; threeCanvas := threeCanvas st; scene := scene st; camera := camera st; renderer
     := renderer st; controls := controls st; modelGroup := modelGroup st; next_id :=
     next_id st; trace := v |}.

Definition log (e : Event) (st : State) : State :=
  set_trace (trace st ++ [e]) st.

Definition log_all (es : list Event) (st : State) : State :=
  set_trace (trace st ++ es) st.

(** ** clearModel *)

(** [object.material.dispose()], or one call per element of a material array. *)
Definition dispose_material (m : THREE.MaterialSlot) : list Event :=
  match m with
  | THREE.NoMaterial => []
  | THREE.OneMaterial mat => [MaterialDispose (THREE.material_id mat)]
  | THREE.MaterialArray mats =>
      map (fun mat => MaterialDispose (THREE.material_id mat)) mats
  end.

(** [if (object.geometry) object.geometry.dispose()] followed by the release
    of the material. *)
Definition dispose_object (object : THREE.Mesh) : list Event :=
  match THREE.geometry object with
  | Some g => [GeometryDispose (THREE.geometry_id g)]
  | None => []
  end ++ dispose_material (THREE.material object).

(** [while (modelGroup.children.length > 0)]: the first child is removed from
    the group, then released.  Answers the children left in the group and the
    trace. *)
Fixpoint clearModel_loop (children : list THREE.Mesh) (tr : list Event)
  : list THREE.Mesh * list Event :=
  match children with
  | [] => ([], tr)
  | object :: rest => clearModel_loop rest (tr ++ dispose_object object)
  end.

Definition clearModel (st : State) : State :=
  match modelGroup st with
  | None => st
  | Some g =>
      let (left, tr) := clearModel_loop (THREE.children g) (trace st) in
      set_trace tr (set_modelGroup (Some {| THREE.children := left |}) st)
  end.

(** ** resetCameraView *)

Definition place_camera (pos aim : THREE.Vector3) (cam : THREE.PerspectiveCamera)
  : THREE.PerspectiveCamera :=
  {| THREE.fov := THREE.fov cam; THREE.aspect := THREE.aspect cam;
     THREE.near := THREE.near cam; THREE.far := THREE.far cam;
     THREE.position := pos; THREE.lookAt := Some aim |}.

Definition set_target (t : THREE.Vector3) (c : THREE.OrbitControls)
  : THREE.OrbitControls :=
  {| THREE.target := t; THREE.enableDamping := THREE.enableDamping c;
     THREE.dampingFactor := THREE.dampingFactor c;
     THREE.screenSpacePanning := THREE.screenSpacePanning c |}.

(** What [controls.update()] does to the camera the controls were built
    for: it is moved within the distance limits around the target and aimed
    at the target. *)
Definition orbited (t : THREE.Vector3) (cam : THREE.PerspectiveCamera)
  : THREE.PerspectiveCamera :=
  {| THREE.fov := THREE.fov cam; THREE.aspect := THREE.aspect cam;
     THREE.near := THREE.near cam; THREE.far := THREE.far cam;
     THREE.position := THREE.orbit t (THREE.position cam);
     THREE.lookAt := Some t |}.

(** [controls.update()], [c] being the controls. *)
Definition controls_update (c : THREE.OrbitControls) (st : State) : State :=
  log ControlsUpdate
    match camera st with
    | Some cam => set_camera (Some (orbited (THREE.target c) cam)) st
    | None => st
    end.

(** [controls.target] takes the value [t], then [controls.update()]. *)
Definition retarget_controls (t : THREE.Vector3) (st : State) : State :=
  match controls st with
  | Some c =>
      controls_update (set_target t c) (set_controls (Some (set_target t c)) st)
  | None => st
  end.

Definition resetCameraView (st : State) : State :=
  let st1 :=
    match camera st with
    | Some cam =>
        set_camera (Some (place_camera (THREE.vec 5 5 5) (THREE.vec 0 0 0) cam)) st
    | None => st
    end in
  retarget_controls (THREE.vec 0 0 0) st1.

(** ** animate and initThreeDScene *)

(** One run of [animate]: the next frame is requested ([requestAnimationFrame]
    answers a non-zero handle), the controls are updated (no pointer input
    is pending, so the damping has nothing to apply) and the scene is
    rendered. *)
Definition animate (st : State) : State :=
  let handle := S (next_id st) in
  let st1 :=
    set_animationFrameId (Some handle)
      (set_next_id (S handle) (log (RequestAnimationFrame handle) st)) in
  let st2 := match controls st1 with Some c => controls_update c st1 | None => st1 end in
  match renderer st2, scene st2, camera st2 with
  | Some _, Some _, Some _ => log RendererRender st2
  | _, _, _ => st2
  end.

(** The distance limits the function gives the controls are
    [THREE.minDistance] and [THREE.maxDistance]. *)
Definition initThreeDScene (st : State) : State :=
  match threeCanvas st with
  | None => st
  | Some canvas =>
      let sc :=
        {| THREE.background := 0xf0f0f0;
           THREE.lights := [THREE.AmbientLight 0xffffff (1 # 2);
                            THREE.DirectionalLight 0xffffff (8 # 10)] |} in
      let cam :=
        {| THREE.fov := 75;
           THREE.aspect := DOM.clientWidth canvas / DOM.clientHeight canvas;
           THREE.near := 1 # 10; THREE.far := 1000;
           THREE.position := THREE.vec 5 5 5; THREE.lookAt := None |} in
      let ctl :=
        {| THREE.target := THREE.vec 0 0 0; THREE.enableDamping := true;
           THREE.dampingFactor := 1 # 4; THREE.screenSpacePanning := false |} in
      animate
        (set_modelGroup (Some {| THREE.children := [] |})
           (set_controls (Some ctl)
              (set_renderer (Some {| THREE.antialias := true |})
                 (set_camera (Some cam) (set_scene (Some sc) st)))))
  end.

(** ** Teardown *)

Inductive Object3D :=
| SceneObject
| LightObject (l : THREE.Light)
| GroupObject
| MeshObject (m : THREE.Mesh).

(** [scene.traverse]: the scene, then its children in the order they were
    added (the two lights, the model group), each followed by its own
    children. *)
Definition traverse (sc : THREE.Scene) (group : option THREE.Group) : list Object3D :=
  SceneObject :: map LightObject (THREE.lights sc)
    ++ match group with
       | Some g => GroupObject :: map MeshObject (THREE.children g)
       | None => []
       end.

(** The callback handed to [traverse]: [if (obj.isMesh) { ... dispose ... }]. *)
Definition dispose_if_mesh (obj : Object3D) : list Event :=
  match obj with
  | MeshObject m => dispose_object m
  | _ => []
  end.

(** [if (animationFrameId) cancelAnimationFrame(animationFrameId)]; the
    Options-API script also clears the handle. *)
Definition cancel_pending_frame (v : Variant) (st : State) : State :=
  match animationFrameId st with
  | Some (S _ as handle) =>
      let st1 := log (CancelAnimationFrame handle) st in
      match v with
      | OptionsApi => set_animationFrameId None st1
      | ScriptSetup => st1
      end
  | _ => st
  end.

(** [if (renderer) { renderer.dispose(); ...; renderer = null }] *)
Definition release_renderer (st : State) : State :=
  match renderer st with
  | Some _ => set_renderer None (log RendererDispose st)
  | None => st
  end.

(** [if (controls) controls.dispose()]; the Options-API script also drops
    the reference. *)
Definition release_controls (v : Variant) (st : State) : State :=
  match controls st with
  | Some _ =>
      let st1 := log ControlsDispose st in
      match v with
      | OptionsApi => set_controls None st1
      | ScriptSetup => st1
      end
  | None => st
  end.

(** [scene?.traverse(obj => ...)] *)
Definition release_scene_meshes (st : State) : State :=
  match scene st with
  | Some sc => log_all (flat_map dispose_if_mesh (traverse sc (modelGroup st))) st
  | None => st
  end.

(** [scene = camera = modelGroup = null] *)
Definition drop_references (st : State) : State :=
  set_modelGroup None (set_camera None (set_scene None st)).

Definition beforeUnmount (v : Variant) (st : State) : State :=
  log RemoveResizeListener
    (drop_references
       (release_scene_meshes
          (release_controls v (release_renderer (cancel_pending_frame v st))))).

(** ** Completions *)

(** A call either completes normally or throws; either way it leaves the
    state it reached. *)
Inductive Completion (A : Type) :=
| Normal (a : A) (st : State)
| Abrupt (e : JS.Exception) (st : State).

Arguments Abrupt {A} e st.

Definition M (A : Type) := State -> Completion A.

Definition ret {A} (a : A) : M A := fun st => Normal a st.

Definition throw {A} (e : JS.Exception) : M A := fun st => Abrupt e st.

Definition bind {A B} (m : M A) (k : A -> M B) : M B :=
  fun st =>
    match m st with
    | Normal a st1 => k a st1
    | Abrupt e st1 => Abrupt e st1
    end.

Definition gets {A} (f : State -> A) : M A := fun st => Normal (f st) st.

Definition modify (f : State -> State) : M unit := fun st => Normal tt (f st).

Declare Scope js_scope.
Delimit Scope js_scope with js.
Notation "x <- m ;; k" := (bind m (fun x => k))
  (at level 61, m at next level, right associativity) : js_scope.
Notation "m ;; k" := (bind m (fun _ => k))
  (at level 61, right associativity) : js_scope.

(** [try { body } catch (e) { handler } finally { final }] *)
Definition try_catch_finally {A} (body : M A) (handler : JS.Exception -> M A)
  (final : State -> State) : M A :=
  fun st =>
    match body st with
    | Normal a st1 => Normal a (final st1)
    | Abrupt e st1 =>
        match handler e st1 with
        | Normal a st2 => Normal a (final st2)
        | Abrupt e2 st2 => Abrupt e2 (final st2)
        end
    end.

Definition state_of {A} (c : Completion A) : State :=
  match c with Normal _ st => st | Abrupt _ st => st end.

Definition completed {A} (c : Completion A) : bool :=
  match c with Normal _ _ => true | Abrupt _ _ => false end.

(** A fresh object identity. *)
Definition fresh : M nat :=
  fun st => Normal (next_id st) (set_next_id (S (next_id st)) st).

(** Whether the variant is the Options-API script, which logs more. *)
Definition when_options (v : Variant) (e : Event) : M unit :=
  match v with
  | OptionsApi => modify (log e)
  | ScriptSetup => ret tt
  end.

(** ** Mesh materialization *)

Definition position_array (meshData : Occt.MeshRecord) : option (list Q) :=
  match Occt.attributes meshData with
  | Some a => match Occt.position a with Some p => Occt.array p | None => None end
  | None => None
  end.

Definition normal_array (meshData : Occt.MeshRecord) : option (list Q) :=
  match Occt.attributes meshData with
  | Some a => match Occt.normal a with Some n => Occt.array n | None => None end
  | None => None
  end.

Definition index_array (meshData : Occt.MeshRecord) : option (list Z) :=
  match Occt.index meshData with
  | Some i => Occt.array i
  | None => None
  end.

Definition quote : string := String (ascii_of_nat 34) EmptyString.

(** [meshData.name || 'Unnamed Mesh'] between quotes. *)
Definition quoted_name (meshData : Occt.MeshRecord) : string :=
  (quote ++ JS.or_else (Occt.name meshData) "Unnamed Mesh" ++ quote)%string.

(** The text of the warning that goes with a skipped record. *)
Definition skip_warning (v : Variant) (meshData : Occt.MeshRecord) : string :=
  match v with
  | ScriptSetup => JS.concat "Skipping invalid mesh: " (Occt.name meshData)
  | OptionsApi =>
      match position_array meshData with
      | None =>
          ("Mesh " ++ quoted_name meshData
             ++ " is missing valid position data. Skipping this mesh.")%string
      | Some _ =>
          ("Mesh " ++ quoted_name meshData
             ++ " is missing valid index data. Skipping this mesh.")%string
      end
  end.

Definition no_normals_warning (meshData : Occt.MeshRecord) : string :=
  ("Mesh " ++ quoted_name meshData
     ++ " has no normals. Computing them, which might be less efficient.")%string.

Definition Qgtb (a b : Q) : bool := negb (Qle_bool a b).

(** [new (positions.length / 3 > 65535 ? Uint32Array : Uint16Array)(array)] *)
Definition new_index_array (positions : THREE.Float32Array) (src : list Z)
  : THREE.IndexArray :=
  if Qgtb (inject_Z (Z.of_nat (List.length positions)) / 3) 65535
  then THREE.new_Uint32Array src
  else THREE.new_Uint16Array src.

(** [meshData.color && meshData.color.length === 3 ? new THREE.Color(r / 255,
    g / 255, b / 255) : 0xcccccc] *)
Definition material_color (meshData : Occt.MeshRecord) : THREE.Color :=
  match Occt.color meshData with
  | Some c =>
      if (List.length c =? 3)%nat then
        THREE.ColorRGB (inject_Z (nth 0 c 0%Z) / 255)
                       (inject_Z (nth 1 c 0%Z) / 255)
                       (inject_Z (nth 2 c 0%Z) / 255)
      else THREE.ColorHex 0xcccccc
  | None => THREE.ColorHex 0xcccccc
  end.

(** [modelGroup.add(mesh)] *)
Definition group_add (mesh : THREE.Mesh) : M unit :=
  fun st =>
    match modelGroup st with
    | Some g =>
        Normal tt (set_modelGroup (Some {| THREE.children := THREE.children g ++ [mesh] |}) st)
    | None => Abrupt (JS.TypeError "Cannot read properties of null (reading 'add')") st
    end.

Local Open Scope string_scope.
Local Open Scope list_scope.
Local Open Scope js_scope.

(** [new THREE.BufferGeometry()] with its position, normal and index
    attributes set from a valid record. *)
Definition new_geometry (gid : nat) (meshData : Occt.MeshRecord)
  (pos : list Q) (idx : list Z) : THREE.BufferGeometry :=
  let positions := THREE.new_Float32Array pos in
  {| THREE.geometry_id := gid;
     THREE.position_attribute := positions;
     THREE.normals :=
       match normal_array meshData with
       | Some n => THREE.NormalAttribute (THREE.new_Float32Array n)
       | None => THREE.ComputedVertexNormals
       end;
     THREE.index_attribute := new_index_array positions idx |}.

(** [new THREE.MeshStandardMaterial({ color, side: THREE.DoubleSide })] *)
Definition new_material (mid : nat) (meshData : Occt.MeshRecord)
  : THREE.MeshStandardMaterial :=
  {| THREE.material_id := mid; THREE.color := material_color meshData;
     THREE.side := THREE.DoubleSide |}.

(** [new THREE.Mesh(geometry, material)] *)
Definition new_mesh (gid mid : nat) (meshData : Occt.MeshRecord)
  (pos : list Q) (idx : list Z) : THREE.Mesh :=
  {| THREE.geometry := Some (new_geometry gid meshData pos idx);
     THREE.material := THREE.OneMaterial (new_material mid meshData) |}.

(** The objects are created in the order geometry, material, mesh; the
    Options-API script warns when the normals have to be computed. *)
Definition build_mesh (v : Variant) (meshData : Occt.MeshRecord)
  (pos : list Q) (idx : list Z) : M THREE.Mesh :=
  gid <- fresh ;;
  match normal_array meshData with
  | Some _ => ret tt
  | None => when_options v (ConsoleWarn (no_normals_warning meshData))
  end ;;
  mid <- fresh ;;
  ret (new_mesh gid mid meshData pos idx).

(** The callback of [importResult.meshes.forEach]; the accumulator is the
    pair of [bbox] and [firstMesh]. *)
Definition materialize (v : Variant) (meshData : Occt.MeshRecord)
  (acc : THREE.Box3 * bool) : M (THREE.Box3 * bool) :=
  match position_array meshData, index_array meshData with
  | Some pos, Some idx =>
      mesh <- build_mesh v meshData pos idx ;;
      group_add mesh ;;
      let (bbox, firstMesh) := acc in
      ret (if firstMesh then THREE.setFromObject mesh
           else THREE.union bbox (THREE.setFromObject mesh), false)
  | _, _ =>
      modify (log (ConsoleWarn (skip_warning v meshData))) ;;
      ret acc
  end.

Fixpoint forEach (v : Variant) (records : list Occt.MeshRecord)
  (acc : THREE.Box3 * bool) : M (THREE.Box3 * bool) :=
  match records with
  | [] => ret acc
  | meshData :: rest =>
      acc1 <- materialize v meshData acc ;;
      forEach v rest acc1
  end.

Section Component.

(** [Math.tan] and [Math.PI]. *)
Variable Math_tan : Q -> Q.
Variable Math_PI : Q.

(** What awaiting the factory of occt-import-js does in this page. *)
Variable occtimportjs : Occt.InitOutcome.

(** The canvas element Vue mounts while [result && result.success] holds. *)
Variable canvasElement : DOM.Canvas.

(** *** Scene fitting *)

(** The camera position that frames a box: [center] moved by [cameraZ]
    along z and by half of it along y. *)
Definition fit_distance (cam : THREE.PerspectiveCamera) (bbox : THREE.Box3) : Q :=
  let size := THREE.getSize bbox in
  let maxDim := Qmax (Qmax (THREE.x size) (THREE.y size)) (THREE.z size) in
  let fov := THREE.fov cam * (Math_PI / 180) in
  let cameraZ := Qabs (maxDim / 2 / Math_tan (fov / 2)) in
  cameraZ * (if Qgtb (THREE.aspect cam) 1 then THREE.aspect cam else 1).

Definition fit_position (cam : THREE.PerspectiveCamera) (bbox : THREE.Box3)
  : THREE.Vector3 :=
  let center := THREE.getCenter bbox in
  let cameraZ := fit_distance cam bbox in
  THREE.vec (THREE.x center)
            (THREE.y center + cameraZ * (1 # 2))
            (THREE.z center + cameraZ).

(** [if (!bbox.isEmpty()) { ... } else { resetCameraView() }] *)
Definition fit_camera (bbox : THREE.Box3) : M unit :=
  if negb (THREE.isEmpty bbox) then
    let center := THREE.getCenter bbox in
    cam <- gets camera ;;
    match cam with
    | None => throw (JS.TypeError "Cannot read properties of null (reading 'fov')")
    | Some c =>
        modify (set_camera (Some (place_camera (fit_position c bbox) center c))) ;;
        modify (retarget_controls center)
    end
  else modify resetCameraView.

(** *** renderModel *)

Definition scene_ready (st : State) : bool :=
  match scene st, camera st, renderer st with
  | Some _, Some _, Some _ => true
  | _, _, _ => false
  end.

(** [if (!scene || !camera || !renderer) { initThreeDScene(); if (!scene)
    return }]: answers whether [renderModel] goes on. *)
Definition ensure_scene (v : Variant) : M bool :=
  ready <- gets scene_ready ;;
  if ready then ret true
  else
    modify initThreeDScene ;;
    sc <- gets scene ;;
    match sc with
    | Some _ => ret true
    | None =>
        when_options v
          (ConsoleError
             "Three.js scene still not initialized after attempt. Cannot render model.") ;;
        ret false
    end.

Definition renderModel (v : Variant) (importResult : option Occt.ImportResult)
  : M unit :=
  go <- ensure_scene v ;;
  if go then
    modify clearModel ;;
    match importResult with
    | Some {| Occt.meshes := Some ((_ :: _) as records) |} =>
        acc <- forEach v records (THREE.empty_box, true) ;;
        fit_camera (fst acc)
    | _ =>
        when_options v (ConsoleWarn "No meshes found in import result to render.") ;;
        modify resetCameraView
    end
  else ret tt.

(** *** processFile *)

(** The dispatch on the lower-cased file name. *)
Definition importFunction (fileName : string) : option Occt.ImportEntry :=
  if JS.endsWith fileName ".step" || JS.endsWith fileName ".stp"
  then Some Occt.ReadStepFile
  else if JS.endsWith fileName ".iges" || JS.endsWith fileName ".igs"
  then Some Occt.ReadIgesFile
  else if JS.endsWith fileName ".brep"
  then Some Occt.ReadBrepFile
  else None.

Definition params : Occt.Params :=
  {| Occt.linearUnit := "millimeter";
     Occt.linearDeflectionType := "bounding_box_ratio";
     Occt.linearDeflection := 1 # 10;
     Occt.angularDeflection := 1 # 2 |}.

(** [await occtimportjs({ locateFile })] *)
Definition await_occtimportjs : M Occt.Module_ :=
  fun st =>
    match occtimportjs with
    | Occt.Resolved occt => Normal occt (log OcctInit st)
    | Occt.Rejected e => Abrupt e (log OcctInit st)
    end.

(** [importFunction(fileContent, params)] *)
Definition call_import (occt : Occt.Module_) (f : Occt.ImportEntry)
  (bytes : list Byte.byte) : M Occt.ImportResult :=
  fun st =>
    match Occt.entry occt f bytes params with
    | Occt.Returned r => Normal r (log (OcctImport f) st)
    | Occt.Raised e => Abrupt e (log (OcctImport f) st)
    end.

(** [nextTick]: the template is rendered again, so the canvas is mounted
    exactly when [result && result.success]. *)
Definition nextTick : M unit :=
  modify (fun st =>
    set_threeCanvas
      (match result st with
       | Some r => if Occt.success r then Some canvasElement else None
       | None => None
       end) st).

(** [selectedFile.name.toLowerCase()] *)
Definition selected_file_name : M string :=
  file <- gets selectedFile ;;
  match file with
  | Some f => ret (JS.toLowerCase (DOM.name f))
  | None => throw (JS.TypeError "Cannot read properties of null (reading 'name')")
  end.

Definition unsupported_message : string :=
  "Unsupported file type. Please select .step, .iges, or .brep.".

Definition import_failed_message (v : Variant) (r : Occt.ImportResult) : string :=
  ("Import failed: "
     ++ JS.or_else (Occt.error r)
          match v with
          | ScriptSetup => "Unknown error."
          | OptionsApi => "Unknown error occurred during import."
          end)%string.

Definition exception_message (v : Variant) (e : JS.Thrown) : string :=
  JS.concat
    match v with
    | ScriptSetup => "Error during OCCT import: "
    | OptionsApi => "Error during OCCT import initialization or processing: "
    end (JS.message e).

(** The body of the [try] block.  Answers whether a [nextTick] callback
    that renders the result was registered (the Options-API script); the
    [<script setup>] script awaits [nextTick] and renders inside the block. *)
Definition processFile_try (v : Variant) (bytes : list Byte.byte) : M bool :=
  occt <- await_occtimportjs ;;
  fileName <- selected_file_name ;;
  match importFunction fileName with
  | None =>
      modify (set_error (Some unsupported_message)) ;;
      modify (set_loading false) ;;
      ret false
  | Some f =>
      when_options v (ConsoleLog "Starting file import...") ;;
      importResult <- call_import occt f bytes ;;
      when_options v (ConsoleLog "Import result:") ;;
      modify (set_result (Some importResult)) ;;
      if negb (Occt.success importResult) then
        modify (set_error (Some (import_failed_message v importResult))) ;;
        ret false
      else
        match v with
        | ScriptSetup =>
            nextTick ;;
            renderModel v (Some importResult) ;;
            ret false
        | OptionsApi => ret true
        end
  end.

(** The [catch] block.  Its first statement evaluates ['...' + e.message]
    before it assigns [error]: when that throws, as it does on [null] and
    [undefined], nothing is assigned or logged, and what it throws leaves
    the handler. *)
Definition processFile_catch (v : Variant) (e : JS.Exception) : M bool :=
  match e with
  | JS.Unreadable raised => throw raised
  | JS.Readable e =>
      modify (set_error (Some (exception_message v e))) ;;
      modify (log (ConsoleError
                     match v with
                     | ScriptSetup => JS.concat EmptyString (JS.message e)
                     | OptionsApi => "OCCT Import Error:"
                     end)) ;;
      ret false
  end.

Definition processFile (v : Variant) : M unit :=
  content <- gets fileContent ;;
  match content with
  | None => modify (set_error (Some "No file selected or file content not loaded."))
  | Some bytes =>
      modify (set_loading true) ;;
      modify (set_result None) ;;
      modify (set_error None) ;;
      modify clearModel ;;
      deferred <- try_catch_finally (processFile_try v bytes) (processFile_catch v)
                    (set_loading false) ;;
      if deferred : bool then
        nextTick ;;
        r <- gets result ;;
        renderModel v r
      else ret tt
  end.

End Component.

(** ** Auxiliary notions for the statements *)

(** The model group holds no mesh: the variable is [null] or the group has
    no children. *)
Definition group_empty (st : State) : bool :=
  match modelGroup st with
  | Some g => match THREE.children g with [] => true | _ :: _ => false end
  | None => true
  end.

(** The state a single materialization leaves: the group, the allocator and
    the trace have moved, the rest of [st] has not. *)
Definition advance (g : option THREE.Group) (n : nat) (tr : list Event) (st : State)
  : State :=
  set_trace tr (set_next_id n (set_modelGroup g st)).

(** A record is valid when both [attributes.position.array] and
    [index.array] are there. *)
Definition valid (meshData : Occt.MeshRecord) : bool :=
  match position_array meshData, index_array meshData with
  | Some _, Some _ => true
  | _, _ => false
  end.

(** What the console shows for one record. *)
Definition normals_events (v : Variant) (meshData : Occt.MeshRecord) : list Event :=
  match normal_array meshData, v with
  | None, OptionsApi => [ConsoleWarn (no_normals_warning meshData)]
  | _, _ => []
  end.

Definition record_events (v : Variant) (meshData : Occt.MeshRecord) : list Event :=
  if valid meshData then normals_events v meshData
  else [ConsoleWarn (skip_warning v meshData)].

(** How [bbox] and [firstMesh] move when a mesh is added. *)
Definition acc_step (acc : THREE.Box3 * bool) (mesh : THREE.Mesh) : THREE.Box3 * bool :=
  (if snd acc then THREE.setFromObject mesh
   else THREE.union (fst acc) (THREE.setFromObject mesh), false).

(** The vertex count [positions.length / 3]. *)
Definition vertex_count (pos : list Q) : Q :=
  inject_Z (Z.of_nat (List.length pos)) / 3.

(** Calls into the import library. *)
Definition is_occt_call (e : Event) : bool :=
  match e with
  | OcctInit | OcctImport _ => true
  | _ => false
  end.

Definition occt_calls (tr : list Event) : list Event := filter is_occt_call tr.

(** A step, or a computation, that extends the trace without calling the
    import library. *)
Definition quiet_step (f : State -> State) : Prop :=
  forall st, exists new, trace (f st) = trace st ++ new /\ occt_calls new = [].

Definition quiet {A : Type} (m : M A) : Prop :=
  forall st, exists new, trace (state_of (m st)) = trace st ++ new /\ occt_calls new = [].

(** The extensions that select each entry point. *)
Definition extensions_of (f : Occt.ImportEntry) : list string :=
  match f with
  | Occt.ReadStepFile => [".step"; ".stp"]
  | Occt.ReadIgesFile => [".iges"; ".igs"]
  | Occt.ReadBrepFile => [".brep"]
  end.

Definition supported_extensions : list string :=
  [".step"; ".stp"; ".iges"; ".igs"; ".brep"].

(** The name ends, whatever the letter case, in one of the five extensions. *)
Definition has_supported_extension (fileName : string) : bool :=
  existsb (JS.endsWith (JS.toLowerCase fileName)) supported_extensions.

(** Two reversed strings differ within their common length. *)
Fixpoint clash (a b : list ascii) : bool :=
  match a, b with
  | c :: a1, d :: b1 => if Ascii.eqb c d then clash a1 b1 else true
  | _, _ => false
  end.

(** What [clearModel] releases and what it leaves in [modelGroup]. *)
Definition cleared_events (st : State) : list Event :=
  match modelGroup st with
  | Some g => flat_map dispose_object (THREE.children g)
  | None => []
  end.

Definition cleared_group (st : State) : option THREE.Group :=
  match modelGroup st with
  | Some _ => Some {| THREE.children := [] |}
  | None => None
  end.

(** The import library throws a value whose [message] cannot be read
    ([null], [undefined]) while [processFile] runs on [st]: the factory
    rejects with it, or the entry point selected for the file throws it. *)
Definition throws_unreadable (init : Occt.InitOutcome) (st : State) : bool :=
  match fileContent st, init with
  | None, _ => false
  | Some _, Occt.Rejected (JS.Unreadable _) => true
  | Some _, Occt.Rejected (JS.Readable _) => false
  | Some bytes, Occt.Resolved occt =>
      match selectedFile st with
      | Some file =>
          match importFunction (JS.toLowerCase (DOM.name file)) with
          | Some f =>
              match Occt.entry occt f bytes params with
              | Occt.Raised (JS.Unreadable _) => true
              | _ => false
              end
          | None => false
          end
      | None => false
      end
  end.

(** A computation that throws nothing but values whose [message] can be
    read. *)
Definition throws_readable {A : Type} (m : M A) : Prop :=
  forall st raised st1, m st <> Abrupt (JS.Unreadable raised) st1.

(** The text the page must show for a thrown value whose [message] is
    [reason], and for a result whose [error] is [reason]. *)
Definition exception_text (v : Variant) (reason : option string) : string :=
  match v, reason with
  | ScriptSetup, Some why => "Error during OCCT import: " ++ why
  | ScriptSetup, None => "Error during OCCT import: undefined"
  | OptionsApi, Some why =>
      "Error during OCCT import initialization or processing: " ++ why
  | OptionsApi, None =>
      "Error during OCCT import initialization or processing: undefined"
  end.

Definition failure_text (v : Variant) (reason : option string) : string :=
  match reason, v with
  | Some (String c why), _ => "Import failed: " ++ String c why
  | _, ScriptSetup => "Import failed: Unknown error."
  | _, OptionsApi => "Import failed: Unknown error occurred during import."
  end.

(** The import capability fails while [processFile] runs on [st]: the
    factory rejects with a value whose [message] can be read (any but [null]
    and [undefined], that is, and the like), the selected entry point throws
    such a value, or it answers [success = false].  The indices are the message the page must show, the
    underlying reason, when there is one, and the result the page must
    hold. *)
Inductive import_failure (init : Occt.InitOutcome) (v : Variant) (st : State)
  (bytes : list Byte.byte) : string -> option string -> option Occt.ImportResult -> Prop :=
| factory_rejected (e : JS.Thrown) :
    init = Occt.Rejected e ->
    import_failure init v st bytes (exception_text v (JS.message e)) (JS.message e) None
| entry_raised (occt : Occt.Module_) (file : DOM.File) (f : Occt.ImportEntry)
    (e : JS.Thrown) :
    init = Occt.Resolved occt ->
    selectedFile st = Some file ->
    importFunction (JS.toLowerCase (DOM.name file)) = Some f ->
    Occt.entry occt f bytes params = Occt.Raised e ->
    import_failure init v st bytes (exception_text v (JS.message e)) (JS.message e) None
| entry_unsuccessful (occt : Occt.Module_) (file : DOM.File) (f : Occt.ImportEntry)
    (r : Occt.ImportResult) :
    init = Occt.Resolved occt ->
    selectedFile st = Some file ->
    importFunction (JS.toLowerCase (DOM.name file)) = Some f ->
    Occt.entry occt f bytes params = Occt.Returned r ->
    Occt.success r = false ->
    import_failure init v st bytes (failure_text v (Occt.error r)) (Occt.error r) (Some r).

(** The meshes [forEach] builds from the records, the first object identity
    being [n]: one mesh per valid record, in order. *)
Fixpoint materialized (n : nat) (records : list Occt.MeshRecord) : list THREE.Mesh :=
  match records with
  | [] => []
  | meshData :: rest =>
      match position_array meshData, index_array meshData with
      | Some pos, Some idx =>
          new_mesh n (S n) meshData pos idx :: materialized (S (S n)) rest
      | _, _ => materialized n rest
      end
  end.

(** The allocator after the records: two identities per valid record. *)
Fixpoint next_after (n : nat) (records : list Occt.MeshRecord) : nat :=
  match records with
  | [] => n
  | meshData :: rest => next_after (if valid meshData then S (S n) else n) rest
  end.

(** A mesh comes from a record: it is the mesh built from its two arrays. *)
Definition built_from (meshData : Occt.MeshRecord) (mesh : THREE.Mesh) : Prop :=
  exists gid mid pos idx,
    position_array meshData = Some pos
    /\ index_array meshData = Some idx
    /\ mesh = new_mesh gid mid meshData pos idx.

(** The union of the boxes of some meshes. *)
Definition union_box (meshes : list THREE.Mesh) : THREE.Box3 :=
  fold_left (fun b m => THREE.union b (THREE.setFromObject m)) meshes THREE.empty_box.

(** ** The vertices of the model *)







(** [renderModel] can go on: the scene is initialised and has its group, or
    the canvas is there so that it can be. *)
Definition can_render (st : State) : bool :=
  if scene_ready st
  then match modelGroup st with Some _ => true | None => false end
  else match threeCanvas st with Some _ => true | None => false end.

(** The state in which the records are visited: the scene initialised if it
    was not, the model group cleared. *)
Definition prepared (st : State) : State :=
  clearModel (if scene_ready st then st else initThreeDScene st).

(** The [controls.update()] that ends the camera placement. *)
Definition controls_events (st : State) : list Event :=
  match controls st with Some _ => [ControlsUpdate] | None => [] end.

(** What one run of [animate] records. *)
Definition animate_events (st : State) : list Event :=
  RequestAnimationFrame (S (next_id st))
    :: match controls st with Some _ => [ControlsUpdate] | None => [] end
    ++ match renderer st, scene st, camera st with
       | Some _, Some _, Some _ => [RendererRender]
       | _, _, _ => []
       end.

(** The camera after a [controls.update()]. *)
Definition updated_camera (st : State) : option THREE.PerspectiveCamera :=
  match controls st, camera st with
  | Some c, Some cam => Some (orbited (THREE.target c) cam)
  | _, _ => camera st
  end.

(** The camera once it has been placed at [pos] and aimed at [aim], and the
    controls, if there are any, have taken [aim] as their target and have
    been updated. *)
Definition placed_camera (ctl : option THREE.OrbitControls) (pos aim : THREE.Vector3)
  (cam : THREE.PerspectiveCamera) : THREE.PerspectiveCamera :=
  match ctl with
  | Some _ => orbited aim (place_camera pos aim cam)
  | None => place_camera pos aim cam
  end.

(** What the console shows when there is no record at all. *)
Definition no_meshes_events (v : Variant) : list Event :=
  match v with
  | OptionsApi => [ConsoleWarn "No meshes found in import result to render."]
  | ScriptSetup => []
  end.

(** The camera position and the point it is aimed at, for a union box. *)
Definition framing (tan : Q -> Q) (pi : Q) (cam : THREE.PerspectiveCamera)
  (bbox : THREE.Box3) : THREE.Vector3 * THREE.Vector3 :=
  if THREE.isEmpty bbox then (THREE.vec 5 5 5, THREE.vec 0 0 0)
  else (fit_position tan pi cam bbox, THREE.getCenter bbox).

(** What the console shows while the records are visited. *)
Definition loop_events (v : Variant) (records : list Occt.MeshRecord) : list Event :=
  match records with
  | [] => no_meshes_events v
  | _ :: _ => flat_map (record_events v) records
  end.

(** The state [renderModel] leaves when it can go on, [cam] being the camera
    of the prepared state. *)
Definition rendered (tan : Q -> Q) (pi : Q) (v : Variant)
  (records : list Occt.MeshRecord) (cam : THREE.PerspectiveCamera) (st : State) : State :=
  let st1 := prepared st in
  let meshes := materialized (next_id st1) records in
  let fr := framing tan pi cam (union_box meshes) in
  retarget_controls (snd fr)
    (set_camera (Some (place_camera (fst fr) (snd fr) cam))
       (advance (Some {| THREE.children := meshes |})
          (next_after (next_id st1) records)
          (trace st1 ++ loop_events v records) st1)).

(** What the four releasing steps of the teardown record, read off the state
    the teardown starts from. *)
Definition cancel_events (st : State) : list Event :=
  match animationFrameId st with
  | Some (S _ as handle) => [CancelAnimationFrame handle]
  | _ => []
  end.

Definition renderer_release_events (st : State) : list Event :=
  match renderer st with Some _ => [RendererDispose] | None => [] end.

Definition controls_release_events (st : State) : list Event :=
  match controls st with Some _ => [ControlsDispose] | None => [] end.

Definition mesh_release_events (st : State) : list Event :=
  match scene st, modelGroup st with
  | Some _, Some g => flat_map dispose_object (THREE.children g)
  | _, _ => []
  end.

(** Counting releases in a trace. *)
Definition count (p : Event -> bool) (tr : list Event) : nat :=
  List.length (filter p tr).

Definition releases_geometry (id : nat) (e : Event) : bool :=
  match e with GeometryDispose i => Nat.eqb i id | _ => false end.

Definition releases_material (id : nat) (e : Event) : bool :=
  match e with MaterialDispose i => Nat.eqb i id | _ => false end.

Definition is_geometry_release (e : Event) : bool :=
  match e with GeometryDispose _ => true | _ => false end.

Definition is_material_release (e : Event) : bool :=
  match e with MaterialDispose _ => true | _ => false end.

(** ** Sample inputs *)

Definition sample_canvas : DOM.Canvas :=
  {| DOM.clientWidth := 800; DOM.clientHeight := 600 |}.

(** The component before it is mounted. *)
Definition created (file : option DOM.File) (bytes : option (list Byte.byte)) : State :=
  {| selectedFile := file; fileContent := bytes; loading := false; result := None;
     error := None; animationFrameId := None; threeCanvas := None; scene := None;
     camera := None; renderer := None; controls := None; modelGroup := None;
     next_id := 0; trace := [] |}.

(** The component once the canvas is there and the scene is initialised. *)
Definition mounted (file : option DOM.File) (bytes : option (list Byte.byte)) : State :=
  initThreeDScene (set_threeCanvas (Some sample_canvas) (created file bytes)).

Definition buffer {A : Type} (l : list A) : option (Occt.Buffer A) :=
  Some {| Occt.array := Some l |}.

(** One red-ish triangle, with an index beyond the three vertices. *)
Definition triangle : Occt.MeshRecord :=
  {| Occt.name := Some "triangle";
     Occt.attributes :=
       Some {| Occt.position := buffer [0; 0; 0; 1; 0; 0; 0; 1; 0];
               Occt.normal := None |};
     Occt.index := buffer [0; 1; 2; 70000]%Z;
     Occt.color := Some [255; 0; 128]%Z |}.

(** A record without [attributes]. *)
Definition broken : Occt.MeshRecord :=
  {| Occt.name := None; Occt.attributes := None;
     Occt.index := buffer [0; 1; 2]%Z; Occt.color := None |}.

(** A valid record without any vertex. *)
Definition hollow : Occt.MeshRecord :=
  {| Occt.name := Some "hollow";
     Occt.attributes := Some {| Occt.position := buffer []; Occt.normal := None |};
     Occt.index := buffer []; Occt.color := None |}.

Definition hollow_result : Occt.ImportResult :=
  {| Occt.success := true; Occt.error := None; Occt.meshes := Some [hollow] |}.

(** Stand-ins for [Math.tan] and [Math.PI] where a sample run needs them. *)
Definition sample_tan (a : Q) : Q := a + a * a * a / 3.
Definition sample_pi : Q := 355 # 113.

(** An import library whose readers answer one invalid record, the triangle
    and another invalid record. *)
Definition sample_result : Occt.ImportResult :=
  {| Occt.success := true; Occt.error := None;
     Occt.meshes := Some [broken; triangle; broken] |}.

Definition sample_module : Occt.Module_ :=
  {| Occt.entry := fun _ _ _ => Occt.Returned sample_result |}.

(** An import library whose readers report a failure. *)
Definition failing_module : Occt.Module_ :=
  {| Occt.entry := fun _ _ _ =>
       Occt.Returned {| Occt.success := false; Occt.error := Some "bad file";
                        Occt.meshes := None |} |}.

(** An import library whose readers throw [undefined]. *)
Definition throwing_module : Occt.Module_ :=
  {| Occt.entry := fun _ _ _ => Occt.Raised JS.undefined |}.

Definition step_file : DOM.File := {| DOM.name := "Bracket.STEP" |}.
Definition text_file : DOM.File := {| DOM.name := "notes.txt" |}.

(** The component showing the triangle of a first import. *)
Definition showing_triangle : State :=
  state_of
    (processFile sample_tan sample_pi (Occt.Resolved sample_module) sample_canvas
       ScriptSetup (created (Some step_file) (Some []))).

(** ** The file input, the window and the mount hook *)

Definition set_selectedFile (v : option DOM.File) (st : State) : State :=
  {| selectedFile := v; fileContent := fileContent st; loading := loading st; result :=
     result st; error := error st; animationFrameId := animationFrameId st; threeCanvas
     := threeCanvas st; scene := scene st; camera := camera st; renderer := renderer st;
     controls := controls st; modelGroup := modelGroup st; next_id := next_id st; trace
     := trace st |}.

Definition set_fileContent (v : option (list Byte.byte)) (st : State) : State :=
  {| selectedFile := selectedFile st; fileContent := v; loading := loading st; result :=
     result st; error := error st; animationFrameId := animationFrameId st; threeCanvas
     := threeCanvas st; scene := scene st; camera := camera st; renderer := renderer st;
     controls := controls st; modelGroup := modelGroup st; next_id := next_id st; trace
     := trace st |}.

(** [handleFileUpload(event)], [files] being [event.target.files].  Answers
    the state and the file handed to [reader.readAsArrayBuffer], if one is. *)
Definition handleFileUpload (files : list DOM.File) (st : State)
  : State * option DOM.File :=
  let st1 :=
    clearModel
      (set_fileContent None
         (set_error None (set_result None (set_selectedFile (hd_error files) st)))) in
  (st1, selectedFile st1).

(** [reader.onload]: [fileContent = new Uint8Array(e.target.result)]. *)
Definition reader_onload (bytes : list Byte.byte) (st : State) : State :=
  set_fileContent (Some bytes) st.

(** [reader.onerror], [err] being the text of [e.target.error]. *)
Definition reader_onerror (err : string) (st : State) : State :=
  set_fileContent None (set_error (Some ("Failed to read file: " ++ err)%string) st).

Definition set_aspect (a : Q) (cam : THREE.PerspectiveCamera) : THREE.PerspectiveCamera :=
  {| THREE.fov := THREE.fov cam; THREE.aspect := a;
     THREE.near := THREE.near cam; THREE.far := THREE.far cam;
     THREE.position := THREE.position cam; THREE.lookAt := THREE.lookAt cam |}.

(** [onWindowResize()], [parentWidth] being [canvas.parentElement.clientWidth].
    Answers the state and the size handed to [renderer.setSize], if it is
    called. *)
Definition onWindowResize (parentWidth : Q) (st : State) : State * option (Q * Q) :=
  match threeCanvas st, camera st, renderer st with
  | Some _, Some cam, Some _ =>
      let width := parentWidth in
      let height := Qmin (width * (3 # 4)) 500 in
      (set_camera (Some (set_aspect (width / height) cam)) st, Some (width, height))
  | _, _, _ => (st, None)
  end.

(** The callback [onMounted] hands to [nextTick]: the template has been
    rendered, then [initThreeDScene()] runs. *)
Definition onMounted_tick (canvas : DOM.Canvas) (st : State) : State :=
  initThreeDScene (state_of (nextTick canvas st)).

(** The [accept] attribute of the file input. *)
Definition accept : list string := [".step"; ".stp"; ".iges"; ".brep"].

(** ** Invariants *)

(** The refs [renderModel] has no business with. *)
Definition refs (st : State)
  : option DOM.File * option (list Byte.byte) * bool * option Occt.ImportResult
    * option string :=
  (selectedFile st, fileContent st, loading st, result st, error st).

Definition keeps_refs_step (f : State -> State) : Prop :=
  forall st, refs (f st) = refs st.

Definition keeps_refs {A : Type} (m : M A) : Prop :=
  forall st, refs (state_of (m st)) = refs st.

Definition is_some {A : Type} (o : option A) : bool :=
  match o with Some _ => true | None => false end.

(** The four objects [renderModel] works on are all there. *)
Definition live (st : State) : bool :=
  is_some (scene st) && is_some (camera st) && is_some (renderer st)
  && is_some (modelGroup st).

(** The Three.js variables go together: where there is a scene there are a
    camera, a renderer and a model group. *)
Definition wired (st : State) : bool :=
  match scene st with
  | Some _ => live st
  | None => true
  end.

(** * Properties *)

(** ** Strings *)

Module JSFacts.

Lemma length_app (a b : string) :
  String.length (a ++ b) = (String.length a + String.length b)%nat.
Proof. induction a as [|c a IH]; simpl; [reflexivity | now rewrite IH]. Qed.

Lemma substring_all (b : string) : substring 0 (String.length b) b = b.
Proof. induction b as [|c b IH]; simpl; [reflexivity | now rewrite IH]. Qed.

Lemma substring_skip (a b : string) :
  substring (String.length a) (String.length b) (a ++ b) = b.
Proof. induction a as [|c a IH]; simpl; [apply substring_all | exact IH]. Qed.

Lemma endsWith_app (a b : string) : JS.endsWith (a ++ b) b = true.
Proof.
  unfold JS.endsWith. rewrite length_app.
  replace (String.length b <=? String.length a + String.length b)%nat with true
    by (symmetry; apply Nat.leb_le; lia).
  replace (String.length a + String.length b - String.length b)%nat
    with (String.length a) by lia.
  rewrite substring_skip. apply String.eqb_refl.
Qed.

Lemma toLowerCase_app (a b : string) :
  JS.toLowerCase (a ++ b) = (JS.toLowerCase a ++ JS.toLowerCase b)%string.
Proof. induction a as [|c a IH]; simpl; [reflexivity | now rewrite IH]. Qed.

Lemma toLowerCase_unit_idempotent (c : ascii) :
  JS.toLowerCase_unit (JS.toLowerCase_unit c) = JS.toLowerCase_unit c.
Proof.
  destruct c as [[] [] [] [] [] [] [] []]; reflexivity.
Qed.

Lemma toLowerCase_idempotent (s : string) :
  JS.toLowerCase (JS.toLowerCase s) = JS.toLowerCase s.
Proof.
  induction s as [|c s IH]; simpl; [reflexivity|].
  now rewrite toLowerCase_unit_idempotent, IH.
Qed.

Lemma units_app (a b : string) :
  list_ascii_of_string (a ++ b) = list_ascii_of_string a ++ list_ascii_of_string b.
Proof. induction a as [|c a IH]; simpl; [reflexivity | now rewrite IH]. Qed.

Lemma substring_split (s : string) :
  forall k, (k <= String.length s)%nat ->
  s = (substring 0 k s ++ substring k (String.length s - k) s)%string.
Proof.
  induction s as [|c s IH]; intros k Hk; simpl in *.
  - destruct k; reflexivity.
  - destruct k as [|k]; simpl.
    + now rewrite substring_all.
    + assert (Hle : (k <= String.length s)%nat) by lia.
      specialize (IH k Hle).
      assert (Hhead : substring 0 (S k) (String c s) = String c (substring 0 k s))
        by reflexivity.
      simpl. f_equal. exact IH.
Qed.

Lemma endsWith_true (s suffix : string) :
  JS.endsWith s suffix = true -> exists pre, s = (pre ++ suffix)%string.
Proof.
  unfold JS.endsWith.
  destruct (Nat.leb_spec (String.length suffix) (String.length s)) as [Hle|]; [|discriminate].
  intros H. apply String.eqb_eq in H.
  exists (substring 0 (String.length s - String.length suffix) s).
  pose proof (@substring_split s (String.length s - String.length suffix)) as Hs.
  replace (String.length s - (String.length s - String.length suffix))%nat
    with (String.length suffix) in Hs by lia.
  rewrite H in Hs. apply Hs. lia.
Qed.

Lemma clash_apart (a b : list ascii) :
  clash a b = true -> forall x y, a ++ x <> b ++ y.
Proof.
  revert b. induction a as [|c a IH]; intros [|d b]; simpl; try discriminate.
  destruct (Ascii.eqb_spec c d) as [->|Hne]; intros H x y E; inversion E.
  - exact (IH b H x y H1).
  - contradiction.
Qed.

Lemma endsWith_clash (b x y : string) :
  clash (rev (list_ascii_of_string x)) (rev (list_ascii_of_string y)) = true ->
  JS.endsWith (b ++ x) y = false.
Proof.
  intros H. destruct (JS.endsWith (b ++ x) y) eqn:E; [|reflexivity].
  destruct (endsWith_true _ _ E) as (pre & Hpre).
  apply (f_equal list_ascii_of_string) in Hpre. rewrite !units_app in Hpre.
  apply (f_equal (@rev ascii)) in Hpre. rewrite !rev_app_distr in Hpre.
  exfalso. exact (clash_apart _ _ H _ _ Hpre).
Qed.

End JSFacts.

(** ** The model group *)

Lemma clearModel_loop_spec (children : list THREE.Mesh) (tr : list Event) :
  clearModel_loop children tr = ([], tr ++ flat_map dispose_object children).
Proof.
  revert tr. induction children as [|object rest IH]; intros tr; simpl.
  - now rewrite app_nil_r.
  - rewrite IH. now rewrite <- app_assoc.
Qed.

Lemma clearModel_spec (st : State) (g : THREE.Group) :
  modelGroup st = Some g ->
  clearModel st =
    set_trace (trace st ++ flat_map dispose_object (THREE.children g))
      (set_modelGroup (Some {| THREE.children := [] |}) st).
Proof.
  intros Hg. unfold clearModel. rewrite Hg, clearModel_loop_spec. reflexivity.
Qed.

Lemma clearModel_group_empty (st : State) : group_empty (clearModel st) = true.
Proof.
  unfold group_empty. destruct (modelGroup st) as [g|] eqn:Hg.
  - rewrite (clearModel_spec st Hg). reflexivity.
  - unfold clearModel. now rewrite Hg, Hg.
Qed.

Lemma clearModel_on_empty (st : State) : group_empty st = true -> clearModel st = st.
Proof.
  unfold group_empty. intros H.
  destruct (modelGroup st) as [g|] eqn:Hg.
  - rewrite (clearModel_spec st Hg).
    destruct g as [children]. simpl in *. destruct children; [|discriminate].
    simpl. rewrite app_nil_r. destruct st; simpl in *. now rewrite Hg.
  - unfold clearModel. now rewrite Hg.
Qed.

(** C9. Clearing the model group is idempotent: on a model group that is
    already empty, and in particular on one that has just been cleared,
    [clearModel] leaves the whole state as it is, so nothing is removed,
    nothing is released and no effect is recorded; [clearModel] is total, so
    no error is signalled. *)
Theorem clearModel_idempotent (st : State) :
  (group_empty st = true -> clearModel st = st /\ trace (clearModel st) = trace st)
  /\ group_empty (clearModel st) = true
  /\ clearModel (clearModel st) = clearModel st.
Proof.
  split; [|split].
  - intros H. rewrite (clearModel_on_empty st H). now split.
  - apply clearModel_group_empty.
  - apply clearModel_on_empty, clearModel_group_empty.
Qed.

Lemma clearModel_idempotent_witness :
  group_empty (mounted None None) = true /\
  clearModel (mounted None None) = mounted None None.
Proof.
  split; [reflexivity|].
  apply (proj1 (clearModel_idempotent (mounted None None))). reflexivity.
Defined.

(** ** One record *)

Ltac run :=
  unfold bind, ret, gets, modify, throw, fresh, when_options, group_add; simpl.

Lemma materialize_valid (v : Variant) (meshData : Occt.MeshRecord)
  (acc : THREE.Box3 * bool) (st : State) (g : THREE.Group) (pos : list Q) (idx : list Z) :
  position_array meshData = Some pos ->
  index_array meshData = Some idx ->
  modelGroup st = Some g ->
  materialize v meshData acc st =
    Normal (acc_step acc (new_mesh (next_id st) (S (next_id st)) meshData pos idx))
      (advance
         (Some {| THREE.children :=
                    THREE.children g
                      ++ [new_mesh (next_id st) (S (next_id st)) meshData pos idx] |})
         (S (S (next_id st))) (trace st ++ normals_events v meshData) st).
Proof.
  intros Hpos Hidx Hg. unfold materialize, build_mesh, normals_events.
  rewrite Hpos, Hidx. destruct acc as [bbox firstMesh].
  destruct (normal_array meshData), v; run; rewrite Hg;
    unfold acc_step, advance; simpl; rewrite ?app_nil_r; reflexivity.
Qed.

Lemma materialize_invalid (v : Variant) (meshData : Occt.MeshRecord)
  (acc : THREE.Box3 * bool) (st : State) :
  valid meshData = false ->
  materialize v meshData acc st =
    Normal acc (log (ConsoleWarn (skip_warning v meshData)) st).
Proof.
  unfold valid, materialize. intros H.
  destruct (position_array meshData), (index_array meshData);
    try discriminate; reflexivity.
Qed.

Lemma Qgtb_true (a b : Q) : Qgtb a b = true <-> b < a.
Proof.
  unfold Qgtb. rewrite negb_true_iff. split; intros H.
  - apply Qnot_le_lt. intros Hle. apply Qle_bool_iff in Hle. congruence.
  - destruct (Qle_bool a b) eqn:E; [|reflexivity].
    apply Qle_bool_iff in E. exfalso. exact (Qlt_not_le _ _ H E).
Qed.

Lemma Qgtb_false (a b : Q) : Qgtb a b = false <-> a <= b.
Proof.
  unfold Qgtb. rewrite negb_false_iff. apply Qle_bool_iff.
Qed.

Lemma new_index_array_width (pos : list Q) (idx : list Z) :
  (THREE.bits (new_index_array (THREE.new_Float32Array pos) idx) = 16%Z
     <-> vertex_count pos <= 65535)
  /\ (THREE.bits (new_index_array (THREE.new_Float32Array pos) idx) = 32%Z
     <-> 65535 < vertex_count pos).
Proof.
  unfold new_index_array, THREE.new_Float32Array, vertex_count.
  destruct (Qgtb (inject_Z (Z.of_nat (List.length pos)) / 3) 65535) eqn:E; simpl.
  - apply Qgtb_true in E. repeat split; intros H; try discriminate; try assumption.
    exfalso. exact (Qlt_not_le _ _ E H).
  - apply Qgtb_false in E. repeat split; intros H; try discriminate; try assumption.
    exfalso. exact (Qlt_not_le _ _ H E).
Qed.

(** C2. For every valid record, [materialize] adds a mesh whose index buffer
    has 16-bit elements if and only if the vertex count [positions.length / 3]
    is at most 65535, and 32-bit elements if and only if it exceeds 65535; the
    width depends on nothing else. *)
Theorem index_width_by_vertex_count (v : Variant) (meshData : Occt.MeshRecord)
  (acc : THREE.Box3 * bool) (st : State) (g : THREE.Group) (pos : list Q) (idx : list Z) :
  position_array meshData = Some pos ->
  index_array meshData = Some idx ->
  modelGroup st = Some g ->
  exists acc1 st1 geo mat,
    materialize v meshData acc st = Normal acc1 st1
    /\ modelGroup st1 =
         Some {| THREE.children :=
                   THREE.children g
                     ++ [{| THREE.geometry := Some geo; THREE.material := mat |}] |}
    /\ (THREE.bits (THREE.index_attribute geo) = 16%Z <-> vertex_count pos <= 65535)
    /\ (THREE.bits (THREE.index_attribute geo) = 32%Z <-> 65535 < vertex_count pos).
Proof.
  intros Hpos Hidx Hg.
  rewrite (materialize_valid v meshData acc st Hpos Hidx Hg).
  eexists _, _, _, _. split; [reflexivity|]. split; [reflexivity|].
  apply new_index_array_width.
Qed.

Lemma index_width_by_vertex_count_witness :
  exists acc1 st1 geo mat,
    materialize ScriptSetup triangle (THREE.empty_box, true) (mounted None None)
      = Normal acc1 st1
    /\ modelGroup st1 =
         Some {| THREE.children :=
                   [{| THREE.geometry := Some geo; THREE.material := mat |}] |}
    /\ (THREE.bits (THREE.index_attribute geo) = 16%Z
        <-> vertex_count [0; 0; 0; 1; 0; 0; 0; 1; 0] <= 65535)
    /\ (THREE.bits (THREE.index_attribute geo) = 32%Z
        <-> 65535 < vertex_count [0; 0; 0; 1; 0; 0; 0; 1; 0]).
Proof.
  apply (@index_width_by_vertex_count ScriptSetup triangle (THREE.empty_box, true)
           (mounted None None) {| THREE.children := [] |}
           [0; 0; 0; 1; 0; 0; 0; 1; 0] [0; 1; 2; 70000]%Z);
    reflexivity.
Defined.

(** Boundary of the width choice: 65535 vertices still take 16-bit elements,
    65536 vertices take 32-bit elements. *)
Example index_width_boundary :
  THREE.bits (new_index_array (repeat 0 (Z.to_nat 196605)) []) = 16%Z
  /\ THREE.bits (new_index_array (repeat 0 (Z.to_nat 196608)) []) = 32%Z.
Proof. split; vm_compute; reflexivity. Qed.

(** C10. The index values of a valid record are never compared with the
    vertex count: whatever they are, the record is materialized, and the index
    buffer holds every value of [index.array], in order, reduced modulo
    [2 ^ 16] when the position array encodes at most 65535 vertices and
    modulo [2 ^ 32] otherwise. *)
Theorem index_values_wrap (v : Variant) (meshData : Occt.MeshRecord)
  (acc : THREE.Box3 * bool) (st : State) (g : THREE.Group) (pos : list Q) (idx : list Z) :
  position_array meshData = Some pos ->
  index_array meshData = Some idx ->
  modelGroup st = Some g ->
  exists acc1 st1 geo mat,
    materialize v meshData acc st = Normal acc1 st1
    /\ modelGroup st1 =
         Some {| THREE.children :=
                   THREE.children g
                     ++ [{| THREE.geometry := Some geo; THREE.material := mat |}] |}
    /\ (vertex_count pos <= 65535 ->
        THREE.index_attribute geo
          = THREE.Uint16Array (map (fun i => i mod 2 ^ 16)%Z idx))
    /\ (65535 < vertex_count pos ->
        THREE.index_attribute geo
          = THREE.Uint32Array (map (fun i => i mod 2 ^ 32)%Z idx)).
Proof.
  intros Hpos Hidx Hg.
  rewrite (materialize_valid v meshData acc st Hpos Hidx Hg).
  eexists _, _, _, _. split; [reflexivity|]. split; [reflexivity|].
  simpl. unfold new_index_array, THREE.new_Float32Array.
  fold (vertex_count pos).
  destruct (Qgtb (vertex_count pos) 65535) eqn:E.
  - apply Qgtb_true in E. split; intros H; [|reflexivity].
    exfalso. exact (Qlt_not_le _ _ E H).
  - apply Qgtb_false in E. split; intros H; [reflexivity|].
    exfalso. exact (Qlt_not_le _ _ H E).
Qed.

Lemma index_values_wrap_witness :
  exists acc1 st1 geo mat,
    materialize OptionsApi triangle (THREE.empty_box, true) (mounted None None)
      = Normal acc1 st1
    /\ modelGroup st1 =
         Some {| THREE.children :=
                   [{| THREE.geometry := Some geo; THREE.material := mat |}] |}
    /\ THREE.index_attribute geo = THREE.Uint16Array [0; 1; 2; 4464]%Z.
Proof.
  destruct (@index_values_wrap OptionsApi triangle (THREE.empty_box, true)
              (mounted None None) {| THREE.children := [] |}
              [0; 0; 0; 1; 0; 0; 0; 1; 0] [0; 1; 2; 70000]%Z
              eq_refl eq_refl eq_refl)
    as (acc1 & st1 & geo & mat & Hrun & Hgroup & H16 & _).
  exists acc1, st1, geo, mat. split; [exact Hrun|]. split; [exact Hgroup|].
  apply H16. vm_compute. discriminate.
Defined.

(** C6. For every valid record, the material of the mesh [materialize] adds
    has the colour chosen from the record alone: when [color] is there with
    exactly three channels, each channel divided by 255 (so [255, 0, 128]
    gives 1, 0 and 128/255); when [color] is absent or has another number of
    channels, the fixed light gray [0xcccccc]. *)
Theorem material_color_exact (v : Variant) (meshData : Occt.MeshRecord)
  (acc : THREE.Box3 * bool) (st : State) (g : THREE.Group) (pos : list Q) (idx : list Z) :
  position_array meshData = Some pos ->
  index_array meshData = Some idx ->
  modelGroup st = Some g ->
  exists acc1 st1 geo mat,
    materialize v meshData acc st = Normal acc1 st1
    /\ modelGroup st1 =
         Some {| THREE.children :=
                   THREE.children g
                     ++ [{| THREE.geometry := Some geo;
                            THREE.material := THREE.OneMaterial mat |}] |}
    /\ (forall r gr b, Occt.color meshData = Some [r; gr; b] ->
        THREE.color mat
          = THREE.ColorRGB (inject_Z r / 255) (inject_Z gr / 255) (inject_Z b / 255))
    /\ (Occt.color meshData = Some [255; 0; 128]%Z ->
        exists cr cg cb,
          THREE.color mat = THREE.ColorRGB cr cg cb
          /\ cr == 1 /\ cg == 0 /\ cb == 128 # 255)
    /\ (Occt.color meshData = None -> THREE.color mat = THREE.ColorHex 0xcccccc)
    /\ (forall c, Occt.color meshData = Some c -> List.length c <> 3%nat ->
        THREE.color mat = THREE.ColorHex 0xcccccc).
Proof.
  intros Hpos Hidx Hg.
  rewrite (materialize_valid v meshData acc st Hpos Hidx Hg).
  eexists _, _, _, _. split; [reflexivity|]. split; [reflexivity|].
  simpl. unfold material_color. repeat split.
  - intros r gr b Hc. rewrite Hc. reflexivity.
  - intros Hc. rewrite Hc. simpl. eexists _, _, _. split; [reflexivity|].
    repeat split; reflexivity.
  - intros Hc. rewrite Hc. reflexivity.
  - intros c Hc Hlen. rewrite Hc.
    destruct (Nat.eqb_spec (List.length c) 3); [contradiction | reflexivity].
Qed.

Lemma material_color_exact_witness :
  exists acc1 st1 geo mat,
    materialize ScriptSetup triangle (THREE.empty_box, true) (mounted None None)
      = Normal acc1 st1
    /\ modelGroup st1 =
         Some {| THREE.children :=
                   [{| THREE.geometry := Some geo;
                       THREE.material := THREE.OneMaterial mat |}] |}
    /\ THREE.color mat = THREE.ColorRGB (255 / 255) (0 / 255) (128 / 255).
Proof.
  destruct (@material_color_exact ScriptSetup triangle (THREE.empty_box, true)
              (mounted None None) {| THREE.children := [] |}
              [0; 0; 0; 1; 0; 0; 0; 1; 0] [0; 1; 2; 70000]%Z
              eq_refl eq_refl eq_refl)
    as (acc1 & st1 & geo & mat & Hrun & Hgroup & Hrgb & _).
  exists acc1, st1, geo, mat. split; [exact Hrun|]. split; [exact Hgroup|].
  apply (Hrgb 255 0 128)%Z. reflexivity.
Defined.

(** ** Computations that do not call the import library *)

Lemma occt_calls_app (a b : list Event) : occt_calls (a ++ b) = occt_calls a ++ occt_calls b.
Proof. apply filter_app. Qed.

Lemma quiet_step_same (f : State -> State) :
  (forall st, trace (f st) = trace st) -> quiet_step f.
Proof. intros H st. exists []. now rewrite H, app_nil_r. Qed.

Lemma quiet_step_log (e : Event) : is_occt_call e = false -> quiet_step (log e).
Proof. intros H st. exists [e]. split; [reflexivity|]. unfold occt_calls. simpl. now rewrite H. Qed.

Lemma quiet_step_compose (f g : State -> State) :
  quiet_step f -> quiet_step g -> quiet_step (fun st => g (f st)).
Proof.
  intros Hf Hg st. destruct (Hf st) as (n1 & E1 & Q1). destruct (Hg (f st)) as (n2 & E2 & Q2).
  exists (n1 ++ n2). rewrite E2, E1, <- app_assoc, occt_calls_app, Q1, Q2. now split.
Qed.

Lemma dispose_object_quiet (object : THREE.Mesh) : occt_calls (dispose_object object) = [].
Proof.
  unfold dispose_object, dispose_material.
  destruct (THREE.geometry object), (THREE.material object) as [|mat|mats]; simpl; try reflexivity;
    induction mats as [|m ms IH]; simpl; auto.
Qed.

Lemma dispose_all_quiet (children : list THREE.Mesh) :
  occt_calls (flat_map dispose_object children) = [].
Proof.
  induction children as [|m ms IH]; simpl; [reflexivity|].
  now rewrite occt_calls_app, dispose_object_quiet, IH.
Qed.

Lemma quiet_step_clearModel : quiet_step clearModel.
Proof.
  intros st. destruct (modelGroup st) as [g|] eqn:Hg.
  - rewrite (clearModel_spec st Hg). eexists. split; [reflexivity|]. apply dispose_all_quiet.
  - unfold clearModel. rewrite Hg. exists []. now rewrite app_nil_r.
Qed.

Lemma quiet_step_retarget (t : THREE.Vector3) : quiet_step (retarget_controls t).
Proof.
  intros st. unfold retarget_controls, controls_update. destruct (controls st).
  - exists [ControlsUpdate]. split; [|reflexivity]. simpl. now destruct (camera st).
  - exists []. now rewrite app_nil_r.
Qed.

Lemma quiet_step_resetCameraView : quiet_step resetCameraView.
Proof.
  intros st. unfold resetCameraView.
  match goal with
  | |- context [retarget_controls ?t ?s] =>
      destruct (quiet_step_retarget t s) as (new & E & Q)
  end.
  exists new. rewrite E. split; [|exact Q]. now destruct (camera st).
Qed.

Lemma quiet_step_animate : quiet_step animate.
Proof.
  intros [? ? ? ? ? ? ? sc cam ren ctl ? ? ?]. unfold animate, controls_update.
  destruct ctl, cam, ren, sc; simpl;
    eexists; (split; [rewrite <- ?app_assoc; reflexivity | reflexivity]).
Qed.

Lemma quiet_step_initThreeDScene : quiet_step initThreeDScene.
Proof.
  intros st. unfold initThreeDScene. destruct (threeCanvas st).
  - match goal with |- context [animate ?s] => destruct (quiet_step_animate s) as (new & E & Q) end.
    exists new. now rewrite E.
  - exists []. now rewrite app_nil_r.
Qed.

Lemma quiet_ret {A : Type} (a : A) : quiet (ret a).
Proof. intros st. exists []. now rewrite app_nil_r. Qed.

Lemma quiet_throw {A : Type} (e : JS.Exception) : quiet (@throw A e).
Proof. intros st. exists []. now rewrite app_nil_r. Qed.

Lemma quiet_gets {A : Type} (f : State -> A) : quiet (gets f).
Proof. intros st. exists []. now rewrite app_nil_r. Qed.

Lemma quiet_modify (f : State -> State) : quiet_step f -> quiet (modify f).
Proof. intros H st. exact (H st). Qed.

Lemma quiet_fresh : quiet fresh.
Proof. intros st. exists []. now rewrite app_nil_r. Qed.

Lemma quiet_bind {A B : Type} (m : M A) (k : A -> M B) :
  quiet m -> (forall a, quiet (k a)) -> quiet (bind m k).
Proof.
  intros Hm Hk st. unfold bind. destruct (Hm st) as (n1 & E1 & Q1).
  destruct (m st) as [a st1|e st1]; simpl in *.
  - destruct (Hk a st1) as (n2 & E2 & Q2). exists (n1 ++ n2).
    rewrite E2, E1, <- app_assoc, occt_calls_app, Q1, Q2. now split.
  - exists n1. now split.
Qed.

Lemma quiet_when_options (v : Variant) (e : Event) :
  is_occt_call e = false -> quiet (when_options v e).
Proof.
  intros H. destruct v; simpl; [apply quiet_ret | apply quiet_modify, quiet_step_log, H].
Qed.

Lemma quiet_group_add (mesh : THREE.Mesh) : quiet (group_add mesh).
Proof.
  intros st. unfold group_add. destruct (modelGroup st); exists []; now rewrite app_nil_r.
Qed.

Create HintDb quiet.
#[local] Hint Resolve quiet_ret quiet_throw quiet_gets quiet_modify quiet_fresh
  quiet_when_options quiet_group_add quiet_step_log quiet_step_clearModel
  quiet_step_retarget quiet_step_resetCameraView quiet_step_initThreeDScene : quiet.

Ltac quiet_tac :=
  repeat first
    [ apply quiet_bind; [|intro]
    | match goal with
      | |- quiet (match ?x with _ => _ end) => destruct x
      | |- quiet (if ?x then _ else _) => destruct x
      | |- quiet (let (_, _) := ?x in _) => destruct x
      end
    | solve [auto with quiet]
    | apply quiet_modify, quiet_step_same; intro; reflexivity ].

Lemma quiet_materialize (v : Variant) (meshData : Occt.MeshRecord) (acc : THREE.Box3 * bool) :
  quiet (materialize v meshData acc).
Proof. unfold materialize, build_mesh. quiet_tac. Qed.

Lemma quiet_forEach (v : Variant) (records : list Occt.MeshRecord) :
  forall acc, quiet (forEach v records acc).
Proof.
  induction records as [|meshData rest IH]; intros acc; simpl.
  - apply quiet_ret.
  - apply quiet_bind; [apply quiet_materialize | exact IH].
Qed.

Lemma quiet_renderModel (tan : Q -> Q) (pi : Q) (v : Variant)
  (importResult : option Occt.ImportResult) : quiet (renderModel tan pi v importResult).
Proof.
  unfold renderModel, ensure_scene, fit_camera.
  pose proof (quiet_forEach v) as HforEach.
  pose proof (quiet_materialize v) as Hmaterialize.
  quiet_tac.
Qed.

(** ** Dispatch on the extension *)

Lemma importFunction_selects (f : Occt.ImportEntry) (base ext : string) :
  In ext (extensions_of f) -> importFunction (base ++ ext) = Some f.
Proof.
  unfold importFunction.
  destruct f; simpl; intros [<-|H]; try destruct H as [<-|[]]; try contradiction;
    rewrite ?JSFacts.endsWith_app, ?orb_true_r;
    rewrite ?(@JSFacts.endsWith_clash base _ ".step") by reflexivity;
    rewrite ?(@JSFacts.endsWith_clash base _ ".stp") by reflexivity;
    rewrite ?(@JSFacts.endsWith_clash base _ ".iges") by reflexivity;
    rewrite ?(@JSFacts.endsWith_clash base _ ".igs") by reflexivity;
    simpl; rewrite ?JSFacts.endsWith_app, ?orb_true_r; reflexivity.
Qed.

Lemma importFunction_unsupported (fileName : string) :
  has_supported_extension fileName = false ->
  importFunction (JS.toLowerCase fileName) = None.
Proof.
  unfold has_supported_extension, importFunction. simpl.
  repeat match goal with
         | |- context [JS.endsWith ?a ?b] => destruct (JS.endsWith a b)
         end; simpl; intros H; try discriminate; reflexivity.
Qed.

Lemma importFunction_case_insensitive (f : Occt.ImportEntry) (base ext : string) :
  In (JS.toLowerCase ext) (extensions_of f) ->
  importFunction (JS.toLowerCase (base ++ ext)) = Some f.
Proof.
  intros H. rewrite JSFacts.toLowerCase_app. now apply importFunction_selects.
Qed.

Lemma clearModel_form (st : State) :
  clearModel st =
    set_trace (trace st ++ cleared_events st) (set_modelGroup (cleared_group st) st).
Proof.
  unfold cleared_events, cleared_group.
  destruct (modelGroup st) as [g|] eqn:Hg.
  - apply clearModel_spec, Hg.
  - unfold clearModel. rewrite Hg. rewrite app_nil_r.
    destruct st; simpl in *. now rewrite Hg.
Qed.

Lemma cleared_events_quiet (st : State) : occt_calls (cleared_events st) = [].
Proof.
  unfold cleared_events. destruct (modelGroup st); [apply dispose_all_quiet | reflexivity].
Qed.

(** ** processFile *)

Ltac crunch_processFile Hc :=
  unfold processFile, try_catch_finally, processFile_try, processFile_catch,
    await_occtimportjs, selected_file_name, call_import, nextTick;
  run; rewrite Hc; rewrite clearModel_form; simpl.

Lemma toLowerCase_split (a b : string) :
  forall s, JS.toLowerCase s = (a ++ b)%string ->
  exists a' b', s = (a' ++ b')%string /\ JS.toLowerCase a' = a /\ JS.toLowerCase b' = b.
Proof.
  induction a as [|c a IH]; intros s H; simpl in H.
  - exists EmptyString, s. now repeat split.
  - destruct s as [|d s]; simpl in H; [discriminate|].
    injection H as Hc Hs. destruct (IH s Hs) as (a' & b' & -> & Ha & Hb).
    exists (String d a'), b'. simpl. now rewrite Hc, Ha, Hb.
Qed.

Lemma dispatch_total (fileName : string) :
  has_supported_extension fileName = true ->
  exists f base ext,
    fileName = (base ++ ext)%string /\ In (JS.toLowerCase ext) (extensions_of f).
Proof.
  unfold has_supported_extension. simpl. rewrite !orb_true_iff.
  intros [H|[H|[H|[H|[H|H]]]]]; try discriminate;
    destruct (JSFacts.endsWith_true _ _ H) as (pre & Hpre);
    destruct (toLowerCase_split _ _ _ Hpre) as (base & ext & -> & _ & Hext);
    [exists Occt.ReadStepFile | exists Occt.ReadStepFile | exists Occt.ReadIgesFile
    | exists Occt.ReadIgesFile | exists Occt.ReadBrepFile];
    exists base, ext; (split; [reflexivity|]); rewrite Hext; simpl; auto.
Qed.

Lemma processFile_supported_calls (tan : Q -> Q) (pi : Q) (canvas : DOM.Canvas)
  (v : Variant) (st : State) (bytes : list Byte.byte) (file : DOM.File)
  (occt : Occt.Module_) (f : Occt.ImportEntry) :
  fileContent st = Some bytes ->
  selectedFile st = Some file ->
  importFunction (JS.toLowerCase (DOM.name file)) = Some f ->
  exists new,
    trace (state_of (processFile tan pi (Occt.Resolved occt) canvas v st)) = trace st ++ new
    /\ occt_calls new = [OcctInit; OcctImport f].
Proof.
  intros Hc Hf Hsel.
  unfold processFile, try_catch_finally, processFile_try, processFile_catch,
    await_occtimportjs, selected_file_name, call_import, nextTick.
  run. rewrite Hc. rewrite clearModel_form. simpl. rewrite Hf, Hsel.
  pose proof (cleared_events_quiet (set_error None (set_result None (set_loading true st))))
    as Hq.
  set (ev := cleared_events _) in *. clearbody ev.
  destruct v; simpl; destruct (Occt.entry occt f bytes params) as [r|[|e]]; simpl;
    try destruct (Occt.success r) eqn:Hs; simpl;
    try match goal with
      | |- context [renderModel ?a ?b ?c ?d ?s] =>
          destruct (quiet_renderModel a b c d s) as (new & E & Q);
          destruct (renderModel a b c d s) as [u s1|[|e1] s1]; simpl in *; rewrite E
      end.
  all: rewrite <- ?app_assoc; eexists; (split; [reflexivity|]).
  all: rewrite ?occt_calls_app, ?Hq, ?Q; try reflexivity.
Qed.

Lemma processFile_unsupported (tan : Q -> Q) (pi : Q) (canvas : DOM.Canvas)
  (v : Variant) (st : State) (bytes : list Byte.byte) (file : DOM.File)
  (occt : Occt.Module_) :
  fileContent st = Some bytes ->
  selectedFile st = Some file ->
  importFunction (JS.toLowerCase (DOM.name file)) = None ->
  processFile tan pi (Occt.Resolved occt) canvas v st =
    Normal tt
      (set_loading false
         (set_error (Some unsupported_message)
            (log OcctInit
               (clearModel (set_error None (set_result None (set_loading true st))))))).
Proof.
  intros Hc Hf Hsel.
  unfold processFile, try_catch_finally, processFile_try, await_occtimportjs,
    selected_file_name.
  run. rewrite Hc. rewrite clearModel_form. simpl. rewrite Hf, Hsel. reflexivity.
Qed.

(** C4 (amended). The dispatch looks at the lower-cased file name only, so it
    is case-insensitive, and it is total.  With the file content loaded and
    the factory of the import library resolved (the factory is awaited before
    the name is looked at, for every name): a name ending in [.step] or
    [.stp] selects [ReadStepFile], [.iges] or [.igs] [ReadIgesFile], [.brep]
    [ReadBrepFile], and that entry point is the only one called; for every
    other name the "unsupported file type" message is shown and no entry
    point is called, the factory being the one call made into the library. *)
Theorem import_dispatch (tan : Q -> Q) (pi : Q) (canvas : DOM.Canvas)
  (v : Variant) (st : State) (bytes : list Byte.byte) (file : DOM.File)
  (occt : Occt.Module_) :
  fileContent st = Some bytes ->
  selectedFile st = Some file ->
  (forall f base ext,
      DOM.name file = (base ++ ext)%string ->
      In (JS.toLowerCase ext) (extensions_of f) ->
      importFunction (JS.toLowerCase (DOM.name file)) = Some f
      /\ exists new,
           trace (state_of (processFile tan pi (Occt.Resolved occt) canvas v st))
             = trace st ++ new
           /\ occt_calls new = [OcctInit; OcctImport f])
  /\ (has_supported_extension (DOM.name file) = false ->
      importFunction (JS.toLowerCase (DOM.name file)) = None
      /\ completed (processFile tan pi (Occt.Resolved occt) canvas v st) = true
      /\ error (state_of (processFile tan pi (Occt.Resolved occt) canvas v st))
           = Some unsupported_message
      /\ loading (state_of (processFile tan pi (Occt.Resolved occt) canvas v st)) = false
      /\ result (state_of (processFile tan pi (Occt.Resolved occt) canvas v st)) = None
      /\ exists new,
           trace (state_of (processFile tan pi (Occt.Resolved occt) canvas v st))
             = trace st ++ new
           /\ occt_calls new = [OcctInit])
  /\ (has_supported_extension (DOM.name file) = true ->
      exists f base ext,
        DOM.name file = (base ++ ext)%string
        /\ In (JS.toLowerCase ext) (extensions_of f)).
Proof.
  intros Hc Hf. split; [|split].
  - intros f base ext Hname Hext.
    assert (Hsel : importFunction (JS.toLowerCase (DOM.name file)) = Some f)
      by (rewrite Hname; now apply importFunction_case_insensitive).
    split; [exact Hsel|].
    now apply processFile_supported_calls with (bytes := bytes) (file := file).
  - intros Hn. pose proof (importFunction_unsupported _ Hn) as Hsel.
    rewrite (processFile_unsupported tan pi canvas v st occt Hc Hf Hsel).
    rewrite clearModel_form. simpl. split; [exact Hsel|]. repeat split.
    rewrite <- app_assoc. eexists. split; [reflexivity|].
    rewrite occt_calls_app, cleared_events_quiet. reflexivity.
  - apply dispatch_total.
Qed.

Lemma import_dispatch_witness :
  importFunction (JS.toLowerCase "Bracket.STEP") = Some Occt.ReadStepFile
  /\ exists new,
       trace (state_of (processFile sample_tan sample_pi (Occt.Resolved sample_module)
                          sample_canvas ScriptSetup (created (Some step_file) (Some []))))
         = [] ++ new
       /\ occt_calls new = [OcctInit; OcctImport Occt.ReadStepFile].
Proof.
  apply (proj1 (@import_dispatch sample_tan sample_pi sample_canvas ScriptSetup
                  (created (Some step_file) (Some [])) [] step_file sample_module
                  eq_refl eq_refl)
           Occt.ReadStepFile "Bracket" ".STEP");
    [reflexivity | simpl; auto].
Defined.

(** The claim as stated fails on a name without a supported extension: when
    the factory of the import library rejects, the message is the one of an
    import error, not "unsupported file type"; and when it resolves, the
    library has been called (its factory) all the same. *)
Lemma import_dispatch_counterexample :
  has_supported_extension (DOM.name text_file) = false
  /\ error (state_of (processFile sample_tan sample_pi
                        (Occt.Rejected {| JS.message := Some "wasm missing" |})
                        sample_canvas ScriptSetup (created (Some text_file) (Some []))))
       = Some "Error during OCCT import: wasm missing"
  /\ error (state_of (processFile sample_tan sample_pi
                        (Occt.Rejected {| JS.message := Some "wasm missing" |})
                        sample_canvas ScriptSetup (created (Some text_file) (Some []))))
       <> Some unsupported_message
  /\ occt_calls
       (trace (state_of (processFile sample_tan sample_pi (Occt.Resolved sample_module)
                           sample_canvas ScriptSetup (created (Some text_file) (Some [])))))
       = [OcctInit].
Proof.
  repeat split; try reflexivity. vm_compute. discriminate.
Qed.

Lemma dispose_object_no_console (object : THREE.Mesh) (text : string) :
  ~ In (ConsoleError text) (dispose_object object).
Proof.
  unfold dispose_object, dispose_material. intros H. apply in_app_or in H.
  destruct H as [H|H].
  - destruct (THREE.geometry object); [destruct H as [H|[]]; discriminate | contradiction].
  - destruct (THREE.material object) as [|mat|mats]; simpl in H.
    + contradiction.
    + destruct H as [H|[]]. discriminate.
    + apply in_map_iff in H. destruct H as (m & H & _). discriminate.
Qed.

Lemma cleared_events_no_console (st : State) (text : string) :
  ~ In (ConsoleError text) (cleared_events st).
Proof.
  unfold cleared_events. destruct (modelGroup st) as [g|]; [|intros []].
  intros H. apply in_flat_map in H. destruct H as (object & _ & H).
  exact (dispose_object_no_console _ _ H).
Qed.

(** C5. The [catch] block of [processFile] is there to turn every exception
    of the import library into a message, but it reads [e.message] of
    whatever was thrown.  When the factory of the library rejects with [null]
    or [undefined] (or any value whose [message] cannot be read), or the
    selected entry point throws one, the handler itself throws:
    [processFile] ends with an exception, [error] is still null, so the page
    shows no message, and no console error is written.  Only the [finally]
    block has run: [loading] is off; the result is null and the model group
    holds no mesh. *)
Theorem unreadable_exception_escapes (tan : Q -> Q) (pi : Q) (init : Occt.InitOutcome)
  (canvas : DOM.Canvas) (v : Variant) (st : State) (bytes : list Byte.byte) :
  fileContent st = Some bytes ->
  throws_unreadable init st = true ->
  completed (processFile tan pi init canvas v st) = false
  /\ error (state_of (processFile tan pi init canvas v st)) = None
  /\ (exists new,
        trace (state_of (processFile tan pi init canvas v st)) = trace st ++ new
        /\ forall text, ~ In (ConsoleError text) new)
  /\ loading (state_of (processFile tan pi init canvas v st)) = false
  /\ result (state_of (processFile tan pi init canvas v st)) = None
  /\ group_empty (state_of (processFile tan pi init canvas v st)) = true.
Proof.
  intros Hc Hnull. unfold throws_unreadable in Hnull. rewrite Hc in Hnull.
  assert (Hgroup : forall s : State,
             modelGroup s
               = cleared_group (set_error None (set_result None (set_loading true st))) ->
             group_empty s = true).
  { intros s Hs. unfold group_empty. rewrite Hs. unfold cleared_group. simpl.
    now destruct (modelGroup st). }
  pose proof (cleared_events_no_console
                (set_error None (set_result None (set_loading true st)))) as Hev.
  crunch_processFile Hc.
  set (ev := cleared_events _) in *. clearbody ev.
  assert (Hnew : forall extra,
             (forall text, ~ In (ConsoleError text) extra) ->
             forall text, ~ In (ConsoleError text) (ev ++ extra)).
  { intros extra Hextra text H. apply in_app_or in H.
    destruct H as [H|H]; [exact (Hev _ H) | exact (Hextra _ H)]. }
  destruct init as [occt|[|e0]]; simpl; try discriminate.
  - destruct (selectedFile st) as [file|]; simpl; [|discriminate].
    destruct (importFunction (JS.toLowerCase (DOM.name file))) as [f|]; simpl;
      [|discriminate].
    destruct (Occt.entry occt f bytes params) as [r|[|e]]; try discriminate.
    destruct v; simpl;
      (split; [reflexivity|]); (split; [reflexivity|]);
      (split; [|split; [reflexivity | split; [reflexivity | now apply Hgroup]]]);
      rewrite <- !app_assoc; (eexists; split; [reflexivity|]); apply Hnew;
      intros text; simpl; intuition discriminate.
  - split; [reflexivity|]. split; [reflexivity|].
    split; [|split; [reflexivity | split; [reflexivity | now apply Hgroup]]].
    rewrite <- !app_assoc. eexists. split; [reflexivity|]. apply Hnew.
    intros text; simpl; intuition discriminate.
Qed.

Lemma unreadable_exception_escapes_witness :
  completed (processFile sample_tan sample_pi (Occt.Rejected JS.null) sample_canvas
               ScriptSetup (created (Some step_file) (Some []))) = false
  /\ error (state_of (processFile sample_tan sample_pi (Occt.Rejected JS.null)
                        sample_canvas ScriptSetup (created (Some step_file) (Some []))))
     = None
  /\ completed (processFile sample_tan sample_pi (Occt.Resolved throwing_module)
                  sample_canvas OptionsApi showing_triangle) = false
  /\ error (state_of (processFile sample_tan sample_pi (Occt.Resolved throwing_module)
                        sample_canvas OptionsApi showing_triangle))
     = None.
Proof.
  destruct (@unreadable_exception_escapes sample_tan sample_pi (Occt.Rejected JS.null)
              sample_canvas ScriptSetup (created (Some step_file) (Some [])) []
              eq_refl eq_refl)
    as (Hdone & Herror & _).
  destruct (@unreadable_exception_escapes sample_tan sample_pi
              (Occt.Resolved throwing_module) sample_canvas OptionsApi showing_triangle []
              eq_refl eq_refl)
    as (Hdone2 & Herror2 & _).
  split; [exact Hdone|]. split; [exact Herror|]. split; [exact Hdone2 | exact Herror2].
Defined.

(** ** The loop over the records *)

Lemma forEach_spec (v : Variant) (records : list Occt.MeshRecord) :
  forall (acc : THREE.Box3 * bool) (st : State) (g : THREE.Group),
  modelGroup st = Some g ->
  forEach v records acc st =
    Normal (fold_left acc_step (materialized (next_id st) records) acc)
      (advance
         (Some {| THREE.children :=
                    THREE.children g ++ materialized (next_id st) records |})
         (next_after (next_id st) records)
         (trace st ++ flat_map (record_events v) records) st).
Proof.
  induction records as [|meshData rest IH]; intros acc st g Hg; simpl.
  - unfold ret, advance. rewrite !app_nil_r. destruct g. destruct st; simpl in *.
    now rewrite Hg.
  - unfold bind, record_events, valid.
    destruct (position_array meshData) as [pos|] eqn:Hpos;
      [destruct (index_array meshData) as [idx|] eqn:Hidx|].
    + rewrite (materialize_valid v meshData acc st Hpos Hidx Hg).
      erewrite IH by reflexivity. simpl.
      unfold advance. simpl. rewrite <- !app_assoc. reflexivity.
    + rewrite materialize_invalid by (unfold valid; now rewrite Hpos, Hidx).
      erewrite IH by (simpl; exact Hg). simpl.
      unfold advance. simpl. rewrite <- !app_assoc. reflexivity.
    + rewrite materialize_invalid by (unfold valid; now rewrite Hpos).
      erewrite IH by (simpl; exact Hg). simpl.
      unfold advance. simpl. rewrite <- !app_assoc. reflexivity.
Qed.

Lemma materialized_built_from (records : list Occt.MeshRecord) :
  forall n, Forall2 built_from (filter valid records) (materialized n records).
Proof.
  induction records as [|meshData rest IH]; intros n; simpl; [constructor|].
  unfold valid.
  destruct (position_array meshData) as [pos|] eqn:Hpos;
    [destruct (index_array meshData) as [idx|] eqn:Hidx|]; try apply IH.
  constructor; [|apply IH]. now exists n, (S n), pos, idx.
Qed.

Lemma fold_acc_step (meshes : list THREE.Mesh) :
  forall acc, (snd acc = true -> fst acc = THREE.empty_box) ->
  fst (fold_left acc_step meshes acc)
    = fold_left (fun b m => THREE.union b (THREE.setFromObject m)) meshes (fst acc).
Proof.
  induction meshes as [|m ms IH]; intros [bbox firstMesh] H; simpl; [reflexivity|].
  rewrite IH by (simpl; discriminate). simpl.
  destruct firstMesh; [|reflexivity]. simpl in H. now rewrite (H eq_refl).
Qed.

(** ** renderModel *)

Lemma animate_form (st : State) :
  animate st =
    set_trace (trace st ++ animate_events st)
      (set_animationFrameId (Some (S (next_id st)))
         (set_next_id (S (S (next_id st))) (set_camera (updated_camera st) st))).
Proof.
  destruct st as [? ? ? ? ? ? ? sc cam ren ctl ? ? ?].
  unfold animate, animate_events, controls_update, updated_camera.
  destruct ctl, cam, ren, sc; simpl;
    unfold log; simpl; rewrite <- ?app_assoc; reflexivity.
Qed.

Lemma prepared_ready (st : State) :
  can_render st = true ->
  exists cam,
    modelGroup (prepared st) = Some {| THREE.children := [] |}
    /\ camera (prepared st) = Some cam
    /\ (scene_ready st = true -> camera st = Some cam).
Proof.
  unfold can_render, prepared. intros H.
  rewrite clearModel_form. unfold cleared_group. simpl.
  destruct (scene_ready st) eqn:Hready.
  - destruct (modelGroup st); [|discriminate].
    unfold scene_ready in Hready.
    destruct (scene st), (camera st) as [cam|]; try discriminate.
    exists cam. now repeat split.
  - unfold initThreeDScene. destruct (threeCanvas st); [|discriminate].
    rewrite animate_form. simpl. eexists. repeat split. discriminate.
Qed.

Lemma fit_camera_spec (tan : Q -> Q) (pi : Q) (bbox : THREE.Box3) (st : State)
  (cam : THREE.PerspectiveCamera) :
  camera st = Some cam ->
  fit_camera tan pi bbox st =
    Normal tt
      (retarget_controls (snd (framing tan pi cam bbox))
         (set_camera
            (Some (place_camera (fst (framing tan pi cam bbox))
                     (snd (framing tan pi cam bbox)) cam)) st)).
Proof.
  intros Hcam. unfold fit_camera, framing.
  destruct (THREE.isEmpty bbox); simpl.
  - unfold modify, resetCameraView. now rewrite Hcam.
  - run. now rewrite Hcam.
Qed.

Lemma renderModel_prepared (tan : Q -> Q) (pi : Q) (v : Variant)
  (importResult : option Occt.ImportResult) (st : State) :
  can_render st = true ->
  renderModel tan pi v importResult st =
    match importResult with
    | Some {| Occt.meshes := Some ((_ :: _) as records) |} =>
        bind (forEach v records (THREE.empty_box, true))
          (fun acc => fit_camera tan pi (fst acc))
    | _ =>
        bind (when_options v (ConsoleWarn "No meshes found in import result to render."))
          (fun _ => modify resetCameraView)
    end (prepared st).
Proof.
  unfold can_render, prepared, renderModel, ensure_scene. intros H.
  destruct (scene_ready st) eqn:Hready.
  - do 2 unfold bind at 1. unfold gets at 1. rewrite Hready.
    unfold ret at 1, bind at 1, modify at 1. reflexivity.
  - do 2 unfold bind at 1. unfold gets at 1. rewrite Hready.
    unfold bind at 1, modify at 1, bind at 1, gets at 1.
    assert (Hs : exists sc, scene (initThreeDScene st) = Some sc).
    { unfold initThreeDScene. destruct (threeCanvas st); [|discriminate].
      rewrite animate_form. simpl. eexists. reflexivity. }
    destruct Hs as (sc & Hs). rewrite Hs.
    unfold ret at 1, bind at 1, modify at 1. reflexivity.
Qed.

Lemma renderModel_spec (tan : Q -> Q) (pi : Q) (v : Variant) (r : Occt.ImportResult)
  (records : list Occt.MeshRecord) (cam : THREE.PerspectiveCamera) (st : State) :
  can_render st = true ->
  camera (prepared st) = Some cam ->
  modelGroup (prepared st) = Some {| THREE.children := [] |} ->
  Occt.meshes r = Some records ->
  renderModel tan pi v (Some r) st = Normal tt (rendered tan pi v records cam st).
Proof.
  intros Hcan Hcam Hgroup Hmeshes.
  rewrite (renderModel_prepared tan pi v (Some r) st Hcan).
  destruct r as [success error_text meshes]. simpl in Hmeshes. subst meshes.
  unfold rendered. destruct records as [|meshData rest].
  - unfold framing, union_box. simpl.
    destruct v; run; unfold resetCameraView; simpl; rewrite Hcam; unfold advance; simpl.
    + rewrite app_nil_r. f_equal. f_equal. f_equal.
      destruct (prepared st); simpl in *. now rewrite Hgroup.
    + f_equal. f_equal. f_equal.
      destruct (prepared st); simpl in *. now rewrite Hgroup.
  - unfold bind. rewrite (forEach_spec v (meshData :: rest) _ (prepared st) Hgroup).
    rewrite fold_acc_step by reflexivity.
    rewrite (@fit_camera_spec tan pi _ _ cam) by exact Hcam.
    reflexivity.
Qed.

Lemma retarget_controls_fields (t : THREE.Vector3) (st : State) :
  modelGroup (retarget_controls t st) = modelGroup st
  /\ camera (retarget_controls t st)
     = match controls st with
       | Some _ => option_map (orbited t) (camera st)
       | None => camera st
       end
  /\ scene (retarget_controls t st) = scene st
  /\ renderer (retarget_controls t st) = renderer st
  /\ animationFrameId (retarget_controls t st) = animationFrameId st
  /\ trace (retarget_controls t st) = trace st ++ controls_events st
  /\ controls (retarget_controls t st) = option_map (set_target t) (controls st).
Proof.
  destruct st as [? ? ? ? ? ? ? sc cam ren ctl ? ? ?].
  unfold retarget_controls, controls_update, controls_events.
  destruct ctl, cam; simpl; rewrite ?app_nil_r; now repeat split.
Qed.

Lemma rendered_fields (tan : Q -> Q) (pi : Q) (v : Variant)
  (records : list Occt.MeshRecord) (cam : THREE.PerspectiveCamera) (st : State) :
  modelGroup (rendered tan pi v records cam st)
    = Some {| THREE.children := materialized (next_id (prepared st)) records |}
  /\ camera (rendered tan pi v records cam st)
     = Some (placed_camera (controls (prepared st))
               (fst (framing tan pi cam
                       (union_box (materialized (next_id (prepared st)) records))))
               (snd (framing tan pi cam
                       (union_box (materialized (next_id (prepared st)) records))))
               cam)
  /\ controls (rendered tan pi v records cam st)
     = option_map
         (set_target
            (snd (framing tan pi cam
                    (union_box (materialized (next_id (prepared st)) records)))))
         (controls (prepared st))
  /\ trace (rendered tan pi v records cam st)
     = trace (prepared st) ++ loop_events v records ++ controls_events (prepared st)
  /\ scene (rendered tan pi v records cam st) = scene (prepared st)
  /\ renderer (rendered tan pi v records cam st) = renderer (prepared st)
  /\ animationFrameId (rendered tan pi v records cam st)
     = animationFrameId (prepared st).
Proof.
  unfold rendered.
  match goal with
  | |- context [retarget_controls ?t ?s] =>
      destruct (retarget_controls_fields t s) as (Hg & Hcam & Hsc & Hr & Ha & Htr & Hctl)
  end.
  rewrite Hg, Hcam, Hsc, Hr, Ha, Htr, Hctl. simpl.
  unfold controls_events, placed_camera. simpl. rewrite <- app_assoc.
  destruct (controls (prepared st)); now repeat split.
Qed.

Lemma loop_events_are_warnings (v : Variant) (records : list Occt.MeshRecord) :
  Forall (fun e => exists text, e = ConsoleWarn text) (loop_events v records).
Proof.
  unfold loop_events, no_meshes_events.
  destruct records as [|m rest].
  - destruct v; repeat constructor. now eexists.
  - apply Forall_flat_map. apply Forall_forall. intros meshData _.
    unfold record_events, normals_events.
    destruct (valid meshData), (normal_array meshData), v;
      repeat constructor; now eexists.
Qed.

Lemma skipped_is_warned (v : Variant) (records : list Occt.MeshRecord)
  (meshData : Occt.MeshRecord) :
  In meshData records -> valid meshData = false ->
  In (ConsoleWarn (skip_warning v meshData)) (loop_events v records).
Proof.
  intros Hin Hinvalid. unfold loop_events.
  destruct records as [|m rest]; [contradiction|].
  apply in_flat_map. exists meshData. split; [exact Hin|].
  unfold record_events. rewrite Hinvalid. now left.
Qed.

(** C1. When [renderModel] visits the records of an import result, it
    completes normally whatever the records are; the model group then holds
    exactly one mesh per valid record, in order, each built from the arrays of
    its record, and none for a record that lacks [position.array] or
    [index.array]; every such record has its warning in the console, and the
    loop writes warnings only, never an error. *)
Theorem partial_success (tan : Q -> Q) (pi : Q) (v : Variant) (r : Occt.ImportResult)
  (records : list Occt.MeshRecord) (st : State) :
  can_render st = true ->
  Occt.meshes r = Some records ->
  exists st1 meshes,
    renderModel tan pi v (Some r) st = Normal tt st1
    /\ modelGroup st1 = Some {| THREE.children := meshes |}
    /\ Forall2 built_from (filter valid records) meshes
    /\ List.length meshes = List.length (filter valid records)
    /\ trace st1
       = trace (prepared st) ++ loop_events v records ++ controls_events (prepared st)
    /\ (forall meshData, In meshData records -> valid meshData = false ->
        In (ConsoleWarn (skip_warning v meshData)) (loop_events v records))
    /\ Forall (fun e => exists text, e = ConsoleWarn text) (loop_events v records).
Proof.
  intros Hcan Hmeshes.
  destruct (prepared_ready st Hcan) as (cam & Hgroup & Hcam & _).
  exists (rendered tan pi v records cam st),
    (materialized (next_id (prepared st)) records).
  destruct (rendered_fields tan pi v records cam st) as (Hg & _ & _ & Htr & _).
  split; [now apply renderModel_spec|]. split; [exact Hg|].
  split; [apply materialized_built_from|].
  split; [symmetry; eapply Forall2_length, materialized_built_from|].
  split; [exact Htr|].
  split; [intros meshData; apply skipped_is_warned | apply loop_events_are_warnings].
Qed.

Lemma partial_success_witness :
  exists st1 meshes,
    renderModel sample_tan sample_pi ScriptSetup (Some sample_result)
      (mounted (Some step_file) (Some [])) = Normal tt st1
    /\ modelGroup st1 = Some {| THREE.children := meshes |}
    /\ Forall2 built_from [triangle] meshes
    /\ List.length meshes = 1%nat
    /\ In (ConsoleWarn "Skipping invalid mesh: undefined") (trace st1).
Proof.
  destruct (@partial_success sample_tan sample_pi ScriptSetup sample_result
              [broken; triangle; broken] (mounted (Some step_file) (Some []))
              eq_refl eq_refl)
    as (st1 & meshes & Hrun & Hgroup & Hbuilt & Hlen & Htrace & Hwarn & _).
  exists st1, meshes. repeat split; try assumption.
  rewrite Htrace. apply in_or_app. right. apply in_or_app. left.
  apply (Hwarn broken); [now left | reflexivity].
Defined.

(** ** Bounding boxes *)





Section Coordinate.

(** One of the three coordinates. *)
Variable c : THREE.Vector3 -> Q.
Hypothesis c_vmin : forall a b, c (THREE.vmin a b) = Qmin (c a) (c b).
Hypothesis c_vmax : forall a b, c (THREE.vmax a b) = Qmax (c a) (c b).







End Coordinate.




(** ** Scene fitting *)




Lemma placed_camera_aim (ctl : option THREE.OrbitControls) (pos aim : THREE.Vector3)
  (cam : THREE.PerspectiveCamera) :
  THREE.lookAt (placed_camera ctl pos aim cam) = Some aim.
Proof. now destruct ctl. Qed.





(** ** Teardown *)

Lemma traverse_disposals (sc : THREE.Scene) (g : THREE.Group) :
  flat_map dispose_if_mesh (traverse sc (Some g))
    = flat_map dispose_object (THREE.children g).
Proof.
  unfold traverse. simpl. rewrite flat_map_app. simpl.
  assert (Hlights : forall ls, flat_map dispose_if_mesh (map LightObject ls) = []).
  { induction ls as [|l ls IH]; simpl; auto. }
  rewrite Hlights. simpl.
  induction (THREE.children g) as [|m ms IH]; simpl; [reflexivity | now rewrite IH].
Qed.

Lemma cancel_pending_frame_fields (v : Variant) (st : State) :
  trace (cancel_pending_frame v st) = trace st ++ cancel_events st
  /\ renderer (cancel_pending_frame v st) = renderer st
  /\ controls (cancel_pending_frame v st) = controls st
  /\ scene (cancel_pending_frame v st) = scene st
  /\ camera (cancel_pending_frame v st) = camera st
  /\ modelGroup (cancel_pending_frame v st) = modelGroup st.
Proof.
  unfold cancel_pending_frame, cancel_events.
  destruct (animationFrameId st) as [[|n]|], v; simpl;
    rewrite ?app_nil_r; now repeat split.
Qed.

Lemma release_renderer_fields (st : State) :
  trace (release_renderer st) = trace st ++ renderer_release_events st
  /\ controls (release_renderer st) = controls st
  /\ scene (release_renderer st) = scene st
  /\ camera (release_renderer st) = camera st
  /\ modelGroup (release_renderer st) = modelGroup st.
Proof.
  unfold release_renderer, renderer_release_events.
  destruct (renderer st); simpl; rewrite ?app_nil_r; now repeat split.
Qed.

Lemma release_controls_fields (v : Variant) (st : State) :
  trace (release_controls v st) = trace st ++ controls_release_events st
  /\ scene (release_controls v st) = scene st
  /\ camera (release_controls v st) = camera st
  /\ modelGroup (release_controls v st) = modelGroup st.
Proof.
  unfold release_controls, controls_release_events.
  destruct (controls st), v; simpl; rewrite ?app_nil_r; now repeat split.
Qed.

Lemma log_all_fields (es : list Event) (st : State) :
  trace (log_all es st) = trace st ++ es
  /\ scene (log_all es st) = scene st
  /\ camera (log_all es st) = camera st
  /\ modelGroup (log_all es st) = modelGroup st.
Proof. now repeat split. Qed.

Lemma release_scene_meshes_fields (st : State) :
  trace (release_scene_meshes st) = trace st ++ mesh_release_events st
  /\ scene (release_scene_meshes st) = scene st
  /\ camera (release_scene_meshes st) = camera st
  /\ modelGroup (release_scene_meshes st) = modelGroup st.
Proof.
  unfold release_scene_meshes, mesh_release_events.
  destruct (scene st) as [sc|] eqn:Hs; [|rewrite app_nil_r; now repeat split].
  match goal with
  | |- context [log_all ?es st] =>
      destruct (log_all_fields es st) as (Ht & Hsc & Hcam & Hg)
  end.
  rewrite Ht, Hsc, Hcam, Hg. split; [|now repeat split].
  destruct (modelGroup st) as [g|]; [now rewrite traverse_disposals|].
  unfold traverse. rewrite app_nil_r. simpl. f_equal.
  induction (THREE.lights sc) as [|l ls IH]; simpl; auto.
Qed.

Lemma beforeUnmount_trace (v : Variant) (st : State) :
  trace (beforeUnmount v st)
    = trace st ++ cancel_events st ++ renderer_release_events st
        ++ controls_release_events st ++ mesh_release_events st
        ++ [RemoveResizeListener].
Proof.
  unfold beforeUnmount. simpl.
  destruct (cancel_pending_frame_fields v st) as (T1 & R1 & C1 & S1 & _ & G1).
  destruct (release_renderer_fields (cancel_pending_frame v st)) as (T2 & C2 & S2 & _ & G2).
  destruct (release_controls_fields v (release_renderer (cancel_pending_frame v st)))
    as (T3 & S3 & _ & G3).
  destruct (release_scene_meshes_fields
              (release_controls v (release_renderer (cancel_pending_frame v st))))
    as (T4 & _).
  rewrite T4, T3, T2, T1.
  unfold mesh_release_events at 1. rewrite S3, S2, S1, G3, G2, G1.
  unfold controls_release_events at 1. rewrite C2, C1.
  unfold renderer_release_events at 1. rewrite R1.
  fold (renderer_release_events st). fold (controls_release_events st).
  fold (mesh_release_events st).
  now rewrite <- !app_assoc.
Qed.

(** C7 (amended). The teardown goes in this order: the pending frame
    callback is cancelled, the renderer is released, the interaction
    controller is released, the geometry and the material of every mesh of
    the scene are released, and only then are the references to the scene,
    the camera and the model group dropped.  The meshes are not removed from
    the model group: up to the last step the three references and the
    children of the group are the ones the teardown started with. *)
Theorem teardown_order (v : Variant) (st : State) :
  trace (beforeUnmount v st)
    = trace st ++ cancel_events st ++ renderer_release_events st
        ++ controls_release_events st ++ mesh_release_events st
        ++ [RemoveResizeListener]
  /\ (exists before_drop,
        beforeUnmount v st = log RemoveResizeListener (drop_references before_drop)
        /\ trace before_drop
           = trace st ++ cancel_events st ++ renderer_release_events st
               ++ controls_release_events st ++ mesh_release_events st
        /\ scene before_drop = scene st
        /\ camera before_drop = camera st
        /\ modelGroup before_drop = modelGroup st)
  /\ scene (beforeUnmount v st) = None
  /\ camera (beforeUnmount v st) = None
  /\ modelGroup (beforeUnmount v st) = None
  /\ renderer (beforeUnmount v st) = None.
Proof.
  split; [apply beforeUnmount_trace|]. split; [|split; [|split; [|split]]];
    try reflexivity.
  - exists (release_scene_meshes
              (release_controls v (release_renderer (cancel_pending_frame v st)))).
    split; [reflexivity|].
    destruct (cancel_pending_frame_fields v st) as (T1 & R1 & C1 & S1 & K1 & G1).
    destruct (release_renderer_fields (cancel_pending_frame v st))
      as (T2 & C2 & S2 & K2 & G2).
    destruct (release_controls_fields v (release_renderer (cancel_pending_frame v st)))
      as (T3 & S3 & K3 & G3).
    destruct (release_scene_meshes_fields
                (release_controls v (release_renderer (cancel_pending_frame v st))))
      as (T4 & S4 & K4 & G4).
    split; [|split; [congruence | split; congruence]].
    pose proof (beforeUnmount_trace v st) as H. unfold beforeUnmount in H.
    simpl in H. rewrite !app_assoc in H. apply app_inj_tail in H.
    destruct H as [H _]. rewrite H. now rewrite <- !app_assoc.
  - unfold beforeUnmount, drop_references. simpl.
    destruct (cancel_pending_frame_fields v st) as (_ & R1 & _).
    unfold release_scene_meshes, release_controls, release_renderer.
    destruct (renderer (cancel_pending_frame v st)) eqn:Hr; simpl;
      repeat match goal with
             | |- context [match ?x with _ => _ end] => destruct x; simpl
             end; try reflexivity; exact Hr.
Qed.

(** The claim as stated fails on the component that shows the triangle: the
    renderer and the controller are released before the geometry and the
    material of the mesh, and the mesh is still in the model group when the
    references are about to be dropped. *)
Lemma teardown_order_counterexample :
  trace (beforeUnmount ScriptSetup showing_triangle)
    = trace showing_triangle
        ++ [CancelAnimationFrame 1; RendererDispose; ControlsDispose;
            GeometryDispose 2; MaterialDispose 3; RemoveResizeListener]
  /\ group_empty
       (release_scene_meshes
          (release_controls ScriptSetup
             (release_renderer (cancel_pending_frame ScriptSetup showing_triangle))))
     = false.
Proof. split; reflexivity. Qed.

(** ** Releases at teardown *)

Lemma count_app (p : Event -> bool) (a b : list Event) :
  count p (a ++ b) = (count p a + count p b)%nat.
Proof. unfold count. now rewrite filter_app, length_app. Qed.

Lemma releases_below (records : list Occt.MeshRecord) :
  forall n id, (id < n)%nat ->
  count (releases_geometry id) (flat_map dispose_object (materialized n records)) = 0%nat
  /\ count (releases_material id) (flat_map dispose_object (materialized n records)) = 0%nat.
Proof.
  induction records as [|meshData rest IH]; intros n id Hlt; simpl; [now split|].
  destruct (position_array meshData) as [pos|]; [destruct (index_array meshData) as [idx|]|];
    try (apply IH; exact Hlt).
  destruct (IH (S (S n)) id) as (Hg & Hm); [lia|].
  cbn [flat_map]. rewrite !count_app, Hg, Hm.
  unfold dispose_object, count. cbn -[Nat.eqb].
  destruct (Nat.eqb_spec n id); [lia|]. destruct (Nat.eqb_spec (S n) id); [lia|].
  now split.
Qed.

Lemma releases_once (records : list Occt.MeshRecord) :
  forall n mesh, In mesh (materialized n records) ->
  exists geo mat,
    THREE.geometry mesh = Some geo
    /\ THREE.material mesh = THREE.OneMaterial mat
    /\ count (releases_geometry (THREE.geometry_id geo))
         (flat_map dispose_object (materialized n records)) = 1%nat
    /\ count (releases_material (THREE.material_id mat))
         (flat_map dispose_object (materialized n records)) = 1%nat.
Proof.
  induction records as [|meshData rest IH]; intros n mesh Hin; simpl in *; [contradiction|].
  destruct (position_array meshData) as [pos|]; [destruct (index_array meshData) as [idx|]|];
    try (apply IH; exact Hin).
  cbn [flat_map]. destruct Hin as [<-|Hin].
  - eexists _, _. split; [reflexivity|]. split; [reflexivity|].
    rewrite !count_app.
    destruct (releases_below rest (n := S (S n)) (id := n)) as (Hg & _); [lia|].
    destruct (releases_below rest (n := S (S n)) (id := S n)) as (_ & Hm); [lia|].
    change (THREE.geometry_id (new_geometry n meshData pos idx)) with n.
    change (THREE.material_id (new_material (S n) meshData)) with (S n).
    rewrite Hg, Hm. unfold dispose_object, count. cbn -[Nat.eqb].
    rewrite !Nat.eqb_refl.
    destruct (Nat.eqb_spec (S n) n); [lia|]. destruct (Nat.eqb_spec n (S n)); [lia|].
    now split.
  - destruct (IH (S (S n)) mesh Hin) as (geo & mat & Hgeo & Hmat & Hg & Hm).
    exists geo, mat. split; [exact Hgeo|]. split; [exact Hmat|].
    rewrite !count_app, Hg, Hm. unfold dispose_object, count. cbn -[Nat.eqb].
    assert (Hids : (S (S n) <= THREE.geometry_id geo /\ S (S n) <= THREE.material_id mat)%nat).
    { destruct (Nat.lt_ge_cases (THREE.geometry_id geo) (S (S n))) as [Hlt|Hge].
      - destruct (releases_below rest Hlt) as (H0 & _). rewrite H0 in Hg. discriminate.
      - destruct (Nat.lt_ge_cases (THREE.material_id mat) (S (S n))) as [Hlt|Hge'].
        + destruct (releases_below rest Hlt) as (_ & H0). rewrite H0 in Hm. discriminate.
        + now split. }
    destruct Hids as (Hgid & Hmid).
    destruct (Nat.eqb_spec n (THREE.geometry_id geo)); [lia|].
    destruct (Nat.eqb_spec (S n) (THREE.material_id mat)); [lia|].
    now split.
Qed.

Lemma releases_total (records : list Occt.MeshRecord) :
  forall n,
  count is_geometry_release (flat_map dispose_object (materialized n records))
    = List.length (materialized n records)
  /\ count is_material_release (flat_map dispose_object (materialized n records))
     = List.length (materialized n records).
Proof.
  induction records as [|meshData rest IH]; intros n; simpl; [now split|].
  destruct (position_array meshData) as [pos|]; [destruct (index_array meshData) as [idx|]|];
    try apply IH.
  cbn [flat_map]. rewrite !count_app. destruct (IH (S (S n))) as (Hg & Hm).
  rewrite Hg, Hm. now split.
Qed.

Lemma teardown_counts (p : Event -> bool) (v : Variant) (st : State) :
  (forall handle, p (CancelAnimationFrame handle) = false) ->
  p RendererDispose = false ->
  p ControlsDispose = false ->
  p RemoveResizeListener = false ->
  count p (cancel_events st ++ renderer_release_events st
             ++ controls_release_events st ++ mesh_release_events st
             ++ [RemoveResizeListener])
    = count p (mesh_release_events st).
Proof.
  intros Hcancel Hrenderer Hcontrols Hremove.
  rewrite !count_app.
  unfold cancel_events, renderer_release_events, controls_release_events, count.
  destruct (animationFrameId st) as [[|n]|], (renderer st), (controls st); simpl;
    rewrite ?Hcancel, ?Hrenderer, ?Hcontrols, ?Hremove; simpl; lia.
Qed.

(** C8. The teardown that follows a materialization releases the geometry
    and the material of every mesh of the model group exactly once: each
    geometry and each material is the subject of one dispose call, and the
    numbers of geometry and of material dispose calls both equal the number
    of meshes in the group. *)
Theorem teardown_releases_once (tan : Q -> Q) (pi : Q) (v : Variant)
  (r : Occt.ImportResult) (records : list Occt.MeshRecord) (st : State) :
  can_render st = true ->
  Occt.meshes r = Some records ->
  exists st1 meshes released,
    renderModel tan pi v (Some r) st = Normal tt st1
    /\ modelGroup st1 = Some {| THREE.children := meshes |}
    /\ trace (beforeUnmount v st1) = trace st1 ++ released
    /\ (forall mesh, In mesh meshes ->
        exists geo mat,
          THREE.geometry mesh = Some geo
          /\ THREE.material mesh = THREE.OneMaterial mat
          /\ count (releases_geometry (THREE.geometry_id geo)) released = 1%nat
          /\ count (releases_material (THREE.material_id mat)) released = 1%nat)
    /\ count is_geometry_release released = List.length meshes
    /\ count is_material_release released = List.length meshes.
Proof.
  intros Hcan Hmeshes.
  destruct (prepared_ready st Hcan) as (cam & Hgroup & Hcam & _).
  destruct (rendered_fields tan pi v records cam st) as (Hg & _ & _ & _ & Hsc & _).
  assert (Hscene : exists sc, scene (rendered tan pi v records cam st) = Some sc).
  { rewrite Hsc. unfold prepared. rewrite clearModel_form. simpl.
    unfold can_render in Hcan. destruct (scene_ready st) eqn:Hready.
    - unfold scene_ready in Hready. destruct (scene st) as [sc|]; [|discriminate].
      now exists sc.
    - unfold initThreeDScene. destruct (threeCanvas st); [|discriminate].
      rewrite animate_form. simpl. eexists. reflexivity. }
  destruct Hscene as (sc & Hscene).
  assert (Hrel : mesh_release_events (rendered tan pi v records cam st)
                 = flat_map dispose_object (materialized (next_id (prepared st)) records))
    by (unfold mesh_release_events; now rewrite Hscene, Hg).
  exists (rendered tan pi v records cam st),
    (materialized (next_id (prepared st)) records).
  eexists. split; [now apply renderModel_spec|]. split; [exact Hg|].
  split; [apply beforeUnmount_trace|].
  split; [|split].
  - intros mesh Hin.
    destruct (releases_once records _ _ Hin) as (geo & mat & Hgeo & Hmat & H1 & H2).
    exists geo, mat. split; [exact Hgeo|]. split; [exact Hmat|].
    rewrite !(teardown_counts _ v) by reflexivity. rewrite Hrel. now split.
  - rewrite (teardown_counts _ v) by reflexivity. rewrite Hrel. apply releases_total.
  - rewrite (teardown_counts _ v) by reflexivity. rewrite Hrel. apply releases_total.
Qed.

Lemma teardown_releases_once_witness :
  exists st1 meshes released,
    renderModel sample_tan sample_pi ScriptSetup (Some sample_result)
      (mounted (Some step_file) (Some [])) = Normal tt st1
    /\ modelGroup st1 = Some {| THREE.children := meshes |}
    /\ trace (beforeUnmount ScriptSetup st1) = trace st1 ++ released
    /\ count is_geometry_release released = List.length meshes
    /\ count is_material_release released = List.length meshes.
Proof.
  destruct (@teardown_releases_once sample_tan sample_pi ScriptSetup sample_result
              [broken; triangle; broken] (mounted (Some step_file) (Some []))
              eq_refl eq_refl)
    as (st1 & meshes & released & Hrun & Hgroup & Htrace & _ & Hgeo & Hmat).
  exists st1, meshes, released. repeat split; assumption.
Defined.

(** ** A successful import, end to end *)

(** [processFile] hands [renderModel] a state in which it can go on: the
    canvas is mounted by [nextTick] since [result.success] holds. *)
Lemma prepared_refs (st : State) :
  error (prepared st) = error st /\ loading (prepared st) = loading st
  /\ result (prepared st) = result st.
Proof.
  unfold prepared. rewrite clearModel_form. simpl.
  destruct (scene_ready st); [now repeat split|].
  unfold initThreeDScene. destruct (threeCanvas st); [|now repeat split].
  rewrite animate_form. now repeat split.
Qed.

Lemma rendered_refs (tan : Q -> Q) (pi : Q) (v : Variant)
  (records : list Occt.MeshRecord) (cam : THREE.PerspectiveCamera) (st : State) :
  error (rendered tan pi v records cam st) = error st
  /\ loading (rendered tan pi v records cam st) = loading st
  /\ result (rendered tan pi v records cam st) = result st.
Proof.
  destruct (prepared_refs st) as (He & Hl & Hr).
  unfold rendered, retarget_controls, controls_update. simpl.
  destruct (controls (prepared st)); simpl; rewrite He, Hl, Hr; now repeat split.
Qed.

Lemma can_render_with_canvas (st s : State) (canvas : DOM.Canvas) :
  (scene_ready st = true -> modelGroup st <> None) ->
  scene s = scene st -> camera s = camera st -> renderer s = renderer st ->
  modelGroup s = cleared_group st ->
  threeCanvas s = Some canvas ->
  can_render s = true.
Proof.
  intros Hwf Hsc Hcam Hr Hg Hcanvas.
  unfold can_render, scene_ready in *. rewrite Hsc, Hcam, Hr, Hg, Hcanvas.
  unfold cleared_group.
  destruct (scene st), (camera st), (renderer st); try reflexivity.
  destruct (modelGroup st); [reflexivity | exfalso; now apply Hwf].
Qed.

Lemma processFile_success (tan : Q -> Q) (pi : Q) (canvas : DOM.Canvas)
  (v : Variant) (st : State) (bytes : list Byte.byte) (file : DOM.File)
  (occt : Occt.Module_) (f : Occt.ImportEntry) (r : Occt.ImportResult)
  (records : list Occt.MeshRecord) :
  fileContent st = Some bytes ->
  selectedFile st = Some file ->
  importFunction (JS.toLowerCase (DOM.name file)) = Some f ->
  Occt.entry occt f bytes params = Occt.Returned r ->
  Occt.success r = true ->
  Occt.meshes r = Some records ->
  (scene_ready st = true -> modelGroup st <> None) ->
  exists st1 meshes,
    processFile tan pi (Occt.Resolved occt) canvas v st = Normal tt st1
    /\ modelGroup st1 = Some {| THREE.children := meshes |}
    /\ Forall2 built_from (filter valid records) meshes
    /\ error st1 = None
    /\ loading st1 = false.
Proof.
  intros Hc Hf Hsel Hrun Hs Hmeshes Hwf.
  unfold processFile, try_catch_finally, processFile_try, processFile_catch,
    await_occtimportjs, selected_file_name, call_import, nextTick.
  run. rewrite Hc. rewrite clearModel_form. simpl. rewrite Hf, Hsel.
  destruct v; simpl; rewrite Hrun; simpl; rewrite Hs; simpl; rewrite ?Hs.
  all: match goal with
       | |- context [renderModel ?a ?b ?c ?d ?s] =>
           assert (Hcan : can_render s = true)
             by (apply (@can_render_with_canvas st s canvas Hwf); reflexivity);
           destruct (prepared_ready s Hcan) as (cam & Hgroup & Hcam & _);
           pose proof (@renderModel_spec a b c r records cam s Hcan Hcam Hgroup Hmeshes)
             as Hspec;
           destruct (rendered_fields a b c records cam s) as (Hg & _ & _ & _ & _ & _ & _);
           destruct (rendered_refs a b c records cam s) as (He & Hl & _);
           destruct (renderModel a b c d s) as [[] final|e final];
           [injection Hspec as Hfinal | discriminate Hspec]
       end.
  all: rewrite <- Hfinal in Hg, He, Hl.
  all: eexists _, _; (split; [reflexivity|]); (split; [exact Hg|]);
    (split; [apply materialized_built_from|]); (split; [exact He|]).
  - reflexivity.
  - exact Hl.
Qed.

(** * Further properties *)

(** ** What renderModel leaves alone *)

Lemma keeps_refs_ret {A : Type} (a : A) : keeps_refs (ret a).
Proof. intros st. reflexivity. Qed.

Lemma keeps_refs_throw {A : Type} (e : JS.Exception) : keeps_refs (@throw A e).
Proof. intros st. reflexivity. Qed.

Lemma keeps_refs_gets {A : Type} (f : State -> A) : keeps_refs (gets f).
Proof. intros st. reflexivity. Qed.

Lemma keeps_refs_fresh : keeps_refs fresh.
Proof. intros st. reflexivity. Qed.

Lemma keeps_refs_modify (f : State -> State) : keeps_refs_step f -> keeps_refs (modify f).
Proof. intros H st. exact (H st). Qed.

Lemma keeps_refs_bind {A B : Type} (m : M A) (k : A -> M B) :
  keeps_refs m -> (forall a, keeps_refs (k a)) -> keeps_refs (bind m k).
Proof.
  intros Hm Hk st. unfold bind. specialize (Hm st).
  destruct (m st) as [a st1|e st1]; simpl in *; [|exact Hm].
  now rewrite (Hk a st1).
Qed.

Lemma keeps_refs_step_log (e : Event) : keeps_refs_step (log e).
Proof. intros st. reflexivity. Qed.

Lemma keeps_refs_step_clearModel : keeps_refs_step clearModel.
Proof. intros st. now rewrite clearModel_form. Qed.

Lemma keeps_refs_step_retarget (t : THREE.Vector3) : keeps_refs_step (retarget_controls t).
Proof.
  intros [? ? ? ? ? ? ? sc cam ren ctl ? ? ?]. unfold retarget_controls, controls_update.
  now destruct ctl, cam.
Qed.

Lemma keeps_refs_step_resetCameraView : keeps_refs_step resetCameraView.
Proof.
  intros st. unfold resetCameraView. rewrite keeps_refs_step_retarget.
  now destruct (camera st).
Qed.

Lemma keeps_refs_step_initThreeDScene : keeps_refs_step initThreeDScene.
Proof.
  intros st. unfold initThreeDScene. destruct (threeCanvas st); [|reflexivity].
  now rewrite animate_form.
Qed.

Lemma keeps_refs_when_options (v : Variant) (e : Event) : keeps_refs (when_options v e).
Proof. destruct v; intros st; reflexivity. Qed.

Lemma keeps_refs_group_add (mesh : THREE.Mesh) : keeps_refs (group_add mesh).
Proof. intros st. unfold group_add. now destruct (modelGroup st). Qed.

Create HintDb refs.
#[local] Hint Resolve keeps_refs_ret keeps_refs_throw keeps_refs_gets keeps_refs_fresh
  keeps_refs_modify keeps_refs_step_log keeps_refs_step_clearModel
  keeps_refs_step_retarget keeps_refs_step_resetCameraView
  keeps_refs_step_initThreeDScene keeps_refs_when_options keeps_refs_group_add : refs.

Ltac refs_tac :=
  repeat first
    [ apply keeps_refs_bind; [|intro]
    | match goal with
      | |- keeps_refs (match ?x with _ => _ end) => destruct x
      | |- keeps_refs (if ?x then _ else _) => destruct x
      | |- keeps_refs (let (_, _) := ?x in _) => destruct x
      end
    | solve [auto with refs]
    | apply keeps_refs_modify; intro; reflexivity ].

Lemma keeps_refs_materialize (v : Variant) (meshData : Occt.MeshRecord)
  (acc : THREE.Box3 * bool) : keeps_refs (materialize v meshData acc).
Proof. unfold materialize, build_mesh. refs_tac. Qed.

Lemma keeps_refs_forEach (v : Variant) (records : list Occt.MeshRecord) :
  forall acc, keeps_refs (forEach v records acc).
Proof.
  induction records as [|meshData rest IH]; intros acc; simpl.
  - apply keeps_refs_ret.
  - apply keeps_refs_bind; [apply keeps_refs_materialize | exact IH].
Qed.

Lemma keeps_refs_renderModel (tan : Q -> Q) (pi : Q) (v : Variant)
  (importResult : option Occt.ImportResult) :
  keeps_refs (renderModel tan pi v importResult).
Proof.
  unfold renderModel, ensure_scene, fit_camera.
  pose proof (keeps_refs_forEach v) as HforEach.
  pose proof (keeps_refs_materialize v) as Hmaterialize.
  refs_tac.
Qed.

(** X1. [renderModel] never touches the refs of the form: whatever the state,
    the variant and the import result, and whether it completes or throws,
    [selectedFile], [fileContent], [loading], [result] and [error] are after
    it what they were before. *)
Theorem renderModel_leaves_refs (tan : Q -> Q) (pi : Q) (v : Variant)
  (importResult : option Occt.ImportResult) (st : State) :
  selectedFile (state_of (renderModel tan pi v importResult st)) = selectedFile st
  /\ fileContent (state_of (renderModel tan pi v importResult st)) = fileContent st
  /\ loading (state_of (renderModel tan pi v importResult st)) = loading st
  /\ result (state_of (renderModel tan pi v importResult st)) = result st
  /\ error (state_of (renderModel tan pi v importResult st)) = error st.
Proof.
  pose proof (keeps_refs_renderModel tan pi v importResult st) as H.
  unfold refs in H. injection H as H1 H2 H3 H4 H5. now repeat split.
Qed.

(** ** processFile, every path *)

Lemma processFile_always (tan : Q -> Q) (pi : Q) (init : Occt.InitOutcome)
  (canvas : DOM.Canvas) (v : Variant) (st : State) (bytes : list Byte.byte) :
  fileContent st = Some bytes ->
  loading (state_of (processFile tan pi init canvas v st)) = false
  /\ selectedFile (state_of (processFile tan pi init canvas v st)) = selectedFile st
  /\ fileContent (state_of (processFile tan pi init canvas v st)) = Some bytes.
Proof.
  intros Hc. crunch_processFile Hc.
  destruct init as [occt|[|e0]]; simpl; [|now repeat split..].
  destruct (selectedFile st) as [file|] eqn:Hf; simpl; [|now repeat split].
  destruct (importFunction (JS.toLowerCase (DOM.name file))) as [f|]; simpl;
    [|now repeat split].
  destruct v; simpl; destruct (Occt.entry occt f bytes params) as [r|[|e]]; simpl;
    try (now repeat split);
    destruct (Occt.success r) eqn:Hs; simpl; try (now repeat split).
  all: match goal with
       | |- context [renderModel ?a ?b ?c ?d ?s] =>
           pose proof (keeps_refs_renderModel a b c d s) as Hk;
           destruct (renderModel a b c d s) as [u s1|[|e1] s1];
           unfold refs in Hk; simpl in Hk;
           injection Hk as H1 H2 H3 H4 H5
       end; simpl; rewrite ?H1, ?H2, ?H3; repeat split; try discriminate; assumption.
Qed.

(** ** renderModel never throws where the variables go together *)

Lemma can_render_live (st : State) : can_render st = true -> live (prepared st) = true.
Proof.
  unfold can_render, prepared, live. intros H. rewrite clearModel_form.
  unfold cleared_group. simpl.
  destruct (scene_ready st) eqn:Hready.
  - unfold scene_ready in Hready.
    destruct (scene st), (camera st), (renderer st), (modelGroup st);
      try discriminate; reflexivity.
  - unfold initThreeDScene. destruct (threeCanvas st); [|discriminate].
    rewrite animate_form. reflexivity.
Qed.

Lemma wired_cannot_render (st : State) :
  wired st = true -> can_render st = false ->
  scene st = None /\ threeCanvas st = None.
Proof.
  unfold wired, can_render, scene_ready, live.
  destruct (scene st), (camera st), (renderer st), (modelGroup st), (threeCanvas st);
    simpl; intros; try discriminate; now split.
Qed.

Lemma renderModel_idle (tan : Q -> Q) (pi : Q) (v : Variant)
  (importResult : option Occt.ImportResult) (st : State) :
  scene st = None -> threeCanvas st = None ->
  renderModel tan pi v importResult st
    = Normal tt
        match v with
        | ScriptSetup => st
        | OptionsApi =>
            log (ConsoleError
                   "Three.js scene still not initialized after attempt. Cannot render model.")
              st
        end.
Proof.
  intros Hs Hc. unfold renderModel, ensure_scene, scene_ready, initThreeDScene.
  run. rewrite Hs, Hc. simpl. rewrite Hs. now destruct v.
Qed.

Lemma renderModel_no_records (tan : Q -> Q) (pi : Q) (v : Variant)
  (importResult : option Occt.ImportResult) (st : State) :
  can_render st = true ->
  match importResult with
  | Some {| Occt.meshes := Some (_ :: _) |} => False
  | _ => True
  end ->
  renderModel tan pi v importResult st
    = Normal tt
        (resetCameraView
           match v with
           | ScriptSetup => prepared st
           | OptionsApi =>
               log (ConsoleWarn "No meshes found in import result to render.")
                 (prepared st)
           end).
Proof.
  intros Hcan Hnone. rewrite (renderModel_prepared tan pi v importResult st Hcan).
  destruct importResult as [[success error_text [[|m rest]|]]|]; try contradiction;
    destruct v; reflexivity.
Qed.

Lemma placed_camera_default (ctl : option THREE.OrbitControls)
  (cam : THREE.PerspectiveCamera) :
  THREE.position (placed_camera ctl (THREE.vec 5 5 5) (THREE.vec 0 0 0) cam)
    = THREE.vec 5 5 5.
Proof. now destruct ctl. Qed.

Lemma resetCameraView_fields (st : State) (cam : THREE.PerspectiveCamera) :
  camera st = Some cam ->
  camera (resetCameraView st)
    = Some (placed_camera (controls st) (THREE.vec 5 5 5) (THREE.vec 0 0 0) cam)
  /\ controls (resetCameraView st)
     = option_map (set_target (THREE.vec 0 0 0)) (controls st)
  /\ trace (resetCameraView st) = trace st ++ controls_events st
  /\ modelGroup (resetCameraView st) = modelGroup st.
Proof.
  intros Hcam. unfold resetCameraView. rewrite Hcam.
  match goal with
  | |- context [retarget_controls ?t ?s] =>
      destruct (retarget_controls_fields t s) as (Hg & Hc & _ & _ & _ & Htr & Hctl)
  end.
  rewrite Hg, Hc, Htr, Hctl. unfold controls_events, placed_camera. simpl.
  destruct (controls st); now repeat split.
Qed.

Lemma live_retarget_controls (t : THREE.Vector3) (st : State) :
  live (retarget_controls t st) = live st.
Proof.
  destruct st as [? ? ? ? ? ? ? sc cam ren ctl ? ? ?].
  unfold live, retarget_controls, controls_update. now destruct ctl, cam.
Qed.

Lemma live_resetCameraView (st : State) : live st = true -> live (resetCameraView st) = true.
Proof.
  unfold resetCameraView. intros H. rewrite live_retarget_controls.
  unfold live in *. destruct (camera st) eqn:Hcam; simpl; rewrite ?Hcam; exact H.
Qed.

Lemma live_wired (st : State) : live st = true -> wired st = true.
Proof. unfold wired. intros H. now destruct (scene st). Qed.

Lemma renderModel_safe (tan : Q -> Q) (pi : Q) (v : Variant)
  (importResult : option Occt.ImportResult) (st : State) :
  wired st = true ->
  completed (renderModel tan pi v importResult st) = true
  /\ wired (state_of (renderModel tan pi v importResult st)) = true.
Proof.
  intros Hw. destruct (can_render st) eqn:Hcan.
  - pose proof (can_render_live st Hcan) as Hlive.
    destruct importResult as [[success error_text [[|m rest]|]]|].
    2:{ destruct (prepared_ready st Hcan) as (cam & Hgroup & Hcam & _).
        rewrite (@renderModel_spec tan pi v
                   {| Occt.success := success; Occt.error := error_text;
                      Occt.meshes := Some (m :: rest) |}
                   (m :: rest) cam st Hcan Hcam Hgroup eq_refl).
        split; [reflexivity|]. simpl. apply live_wired.
        destruct (rendered_fields tan pi v (m :: rest) cam st)
          as (Hg & Hc & _ & _ & Hsc & Hr & _).
        unfold live in *. rewrite Hg, Hc, Hsc, Hr.
        destruct (scene (prepared st)), (renderer (prepared st)); try reflexivity;
          simpl in Hlive; try discriminate;
          destruct (camera (prepared st)); discriminate. }
    all: rewrite renderModel_no_records by (exact Hcan || exact I);
      (split; [reflexivity|]); simpl; apply live_wired, live_resetCameraView;
      destruct v; exact Hlive.
  - destruct (wired_cannot_render st Hw Hcan) as (Hs & Hc).
    rewrite (renderModel_idle tan pi v importResult st Hs Hc).
    split; [reflexivity|]. destruct v; simpl; [exact Hw|].
    unfold wired in *. simpl. now rewrite Hs.
Qed.

Ltac wired_fields st :=
  unfold wired, live, cleared_group in *; simpl in *;
  destruct (scene st), (camera st), (renderer st), (modelGroup st);
  simpl in *; try discriminate; try reflexivity.

(** ** What renderModel can throw *)

Lemma throws_readable_ret {A : Type} (a : A) : throws_readable (ret a).
Proof. intros st raised st1. discriminate. Qed.

Lemma throws_readable_throw {A : Type} (e : JS.Thrown) : throws_readable (@throw A e).
Proof. intros st raised st1. discriminate. Qed.

Lemma throws_readable_gets {A : Type} (f : State -> A) : throws_readable (gets f).
Proof. intros st raised st1. discriminate. Qed.

Lemma throws_readable_modify (f : State -> State) : throws_readable (modify f).
Proof. intros st raised st1. discriminate. Qed.

Lemma throws_readable_fresh : throws_readable fresh.
Proof. intros st raised st1. discriminate. Qed.

Lemma throws_readable_when_options (v : Variant) (e : Event) :
  throws_readable (when_options v e).
Proof. destruct v; intros st raised st1; discriminate. Qed.

Lemma throws_readable_group_add (mesh : THREE.Mesh) : throws_readable (group_add mesh).
Proof.
  intros st raised st1. unfold group_add. destruct (modelGroup st); discriminate.
Qed.

Lemma throws_readable_bind {A B : Type} (m : M A) (k : A -> M B) :
  throws_readable m -> (forall a, throws_readable (k a)) -> throws_readable (bind m k).
Proof.
  intros Hm Hk st raised st1. unfold bind. specialize (Hm st).
  destruct (m st) as [a s|e s]; [apply Hk|].
  intros H. injection H as -> ->. now apply (Hm raised st1).
Qed.

Create HintDb readable.
#[local] Hint Resolve throws_readable_ret throws_readable_throw throws_readable_gets
  throws_readable_modify throws_readable_fresh throws_readable_when_options
  throws_readable_group_add : readable.

Ltac readable_tac :=
  repeat first
    [ apply throws_readable_bind; [|intro]
    | match goal with
      | |- throws_readable (match ?x with _ => _ end) => destruct x
      | |- throws_readable (if ?x then _ else _) => destruct x
      | |- throws_readable (let (_, _) := ?x in _) => destruct x
      end
    | solve [auto with readable] ].

Lemma throws_readable_materialize (v : Variant) (meshData : Occt.MeshRecord)
  (acc : THREE.Box3 * bool) : throws_readable (materialize v meshData acc).
Proof. unfold materialize, build_mesh. readable_tac. Qed.

Lemma throws_readable_forEach (v : Variant) (records : list Occt.MeshRecord) :
  forall acc, throws_readable (forEach v records acc).
Proof.
  induction records as [|meshData rest IH]; intros acc; simpl.
  - apply throws_readable_ret.
  - apply throws_readable_bind; [apply throws_readable_materialize | exact IH].
Qed.

Lemma throws_readable_renderModel (tan : Q -> Q) (pi : Q) (v : Variant)
  (importResult : option Occt.ImportResult) :
  throws_readable (renderModel tan pi v importResult).
Proof.
  unfold renderModel, ensure_scene, fit_camera.
  pose proof (throws_readable_forEach v) as HforEach.
  pose proof (throws_readable_materialize v) as Hmaterialize.
  readable_tac.
Qed.

Lemma processFile_safe (tan : Q -> Q) (pi : Q) (init : Occt.InitOutcome)
  (canvas : DOM.Canvas) (v : Variant) (st : State) :
  wired st = true ->
  completed (processFile tan pi init canvas v st) = negb (throws_unreadable init st)
  /\ wired (state_of (processFile tan pi init canvas v st)) = true.
Proof.
  intros Hw. unfold throws_unreadable. destruct (fileContent st) as [bytes|] eqn:Hc.
  2:{ unfold processFile. run. rewrite Hc. simpl. split; [reflexivity | exact Hw]. }
  crunch_processFile Hc.
  destruct init as [occt|[|e0]]; simpl; [|split; [reflexivity | wired_fields st]..].
  destruct (selectedFile st) as [file|]; simpl; [|split; [reflexivity | wired_fields st]].
  destruct (importFunction (JS.toLowerCase (DOM.name file))) as [f|]; simpl;
    [|split; [reflexivity | wired_fields st]].
  destruct v; simpl; destruct (Occt.entry occt f bytes params) as [r|[|e]]; simpl;
    try (split; [reflexivity | wired_fields st]);
    destruct (Occt.success r) eqn:Hs; simpl;
    try (split; [reflexivity | wired_fields st]).
  all: match goal with
       | |- context [renderModel ?a ?b ?c ?d ?s] =>
           assert (Hws : wired s = true) by (wired_fields st);
           destruct (renderModel_safe a b c d s Hws) as (Hdone & Hafter);
           destruct (renderModel a b c d s); simpl in *; try discriminate
       end.
  all: split; [reflexivity | exact Hafter].
Qed.

Lemma processFile_setup_completed (tan : Q -> Q) (pi : Q) (init : Occt.InitOutcome)
  (canvas : DOM.Canvas) (st : State) :
  completed (processFile tan pi init canvas ScriptSetup st)
    = negb (throws_unreadable init st).
Proof.
  unfold throws_unreadable. destruct (fileContent st) as [bytes|] eqn:Hc.
  2:{ unfold processFile. run. now rewrite Hc. }
  crunch_processFile Hc.
  destruct init as [occt|[|e0]]; simpl; try reflexivity.
  destruct (selectedFile st) as [file|]; simpl; [|reflexivity].
  destruct (importFunction (JS.toLowerCase (DOM.name file))) as [f|]; simpl;
    [|reflexivity].
  destruct (Occt.entry occt f bytes params) as [r|[|e]]; simpl; try reflexivity.
  destruct (Occt.success r) eqn:Hs; simpl; [|reflexivity].
  match goal with
  | |- context [renderModel ?a ?b ?c ?d ?s] =>
      pose proof (throws_readable_renderModel a b c d s) as Hobj;
      destruct (renderModel a b c d s) as [u s1|[raised|e1] s1]
  end; simpl; try reflexivity.
  now destruct (Hobj raised s1).
Qed.

Lemma wired_clearModel (st : State) : wired st = true -> wired (clearModel st) = true.
Proof. intros H. rewrite clearModel_form. wired_fields st. Qed.

Lemma wired_initThreeDScene (st : State) :
  wired st = true -> wired (initThreeDScene st) = true.
Proof.
  intros H. unfold initThreeDScene. destruct (threeCanvas st); [|exact H].
  now rewrite animate_form.
Qed.

Lemma wired_resetCameraView (st : State) :
  wired st = true -> wired (resetCameraView st) = true.
Proof.
  destruct st as [? ? ? ? ? ? ? sc cam ren ctl grp ? ?].
  unfold wired, live, resetCameraView, retarget_controls, controls_update.
  destruct sc, cam, ren, ctl, grp; simpl; intros H; try discriminate; reflexivity.
Qed.

Lemma wired_onWindowResize (w : Q) (st : State) :
  wired st = true -> wired (fst (onWindowResize w st)) = true.
Proof.
  intros H. unfold onWindowResize.
  destruct (threeCanvas st); simpl; [|exact H].
  destruct (camera st) eqn:Hcam; simpl; [|exact H].
  destruct (renderer st) eqn:Hr; simpl; [|exact H].
  unfold wired, live in *. simpl. rewrite Hr. rewrite Hcam, Hr in H.
  destruct (scene st); simpl in *; [exact H | reflexivity].
Qed.

(** X2. Where there is a scene there are a camera, a renderer and a model
    group: this holds of the component as created and is kept by every
    handler ([handleFileUpload], the two callbacks of the file reader,
    [processFile], [renderModel], [clearModel], [resetCameraView],
    [initThreeDScene], the mount callback, [onWindowResize]), and the
    teardown establishes it from any state. *)
Theorem wired_invariant (tan : Q -> Q) (pi : Q) (init : Occt.InitOutcome)
  (canvas : DOM.Canvas) (v : Variant) (st : State) :
  wired st = true ->
  (forall files, wired (fst (handleFileUpload files st)) = true)
  /\ (forall bytes, wired (reader_onload bytes st) = true)
  /\ (forall err, wired (reader_onerror err st) = true)
  /\ wired (state_of (processFile tan pi init canvas v st)) = true
  /\ (forall importResult,
        wired (state_of (renderModel tan pi v importResult st)) = true)
  /\ wired (clearModel st) = true
  /\ wired (resetCameraView st) = true
  /\ wired (initThreeDScene st) = true
  /\ wired (onMounted_tick canvas st) = true
  /\ (forall w, wired (fst (onWindowResize w st)) = true)
  /\ (forall file bytes, wired (created file bytes) = true)
  /\ (forall any, wired (beforeUnmount v any) = true).
Proof.
  intros H. repeat split.
  - intros files. unfold handleFileUpload. simpl. rewrite clearModel_form. wired_fields st.
  - intros bytes. exact H.
  - intros err. exact H.
  - apply (processFile_safe tan pi init canvas v st H).
  - intros importResult. apply renderModel_safe, H.
  - apply wired_clearModel, H.
  - apply wired_resetCameraView, H.
  - apply wired_initThreeDScene, H.
  - unfold onMounted_tick. apply wired_initThreeDScene. exact H.
  - intros w. apply wired_onWindowResize, H.
Qed.

Lemma wired_invariant_witness :
  wired (state_of (processFile sample_tan sample_pi (Occt.Resolved sample_module)
                     sample_canvas OptionsApi (created (Some step_file) (Some []))))
  = true.
Proof.
  destruct (@wired_invariant sample_tan sample_pi (Occt.Resolved sample_module)
              sample_canvas OptionsApi (created (Some step_file) (Some [])) eq_refl)
    as (_ & _ & _ & H & _).
  exact H.
Defined.

(** X3. From a state where the Three.js variables go together,
    [renderModel] lets no exception escape, whatever the records are, and
    [processFile] lets one escape in one case only: the import library throws
    [null], [undefined] or another value whose [message] cannot be read, on
    which the [catch] block itself throws while it reads [e.message].  This
    covers the render the Options-API script defers to [nextTick], outside
    its [try] block. *)
Theorem only_unreadable_escapes (tan : Q -> Q) (pi : Q) (init : Occt.InitOutcome)
  (canvas : DOM.Canvas) (v : Variant) (st : State) :
  wired st = true ->
  (completed (processFile tan pi init canvas v st) = true
   <-> throws_unreadable init st = false)
  /\ forall importResult, completed (renderModel tan pi v importResult st) = true.
Proof.
  intros H. split.
  - destruct (processFile_safe tan pi init canvas v st H) as (-> & _).
    now destruct (throws_unreadable init st).
  - intros importResult. apply renderModel_safe, H.
Qed.

Lemma only_unreadable_escapes_witness :
  completed (processFile sample_tan sample_pi (Occt.Resolved sample_module)
               sample_canvas OptionsApi showing_triangle) = true.
Proof.
  destruct (@only_unreadable_escapes sample_tan sample_pi (Occt.Resolved sample_module)
              sample_canvas OptionsApi showing_triangle eq_refl) as (H & _).
  apply H. reflexivity.
Defined.

(** X4. In any state at all, the [<script setup>] script lets an exception
    escape from [processFile] in one case only: the import library throws
    [null], [undefined] or another value whose [message] cannot be read.  The
    render runs inside the [try] block, so even a throwing [renderModel] ends
    in the [catch] handler, with a message: what [renderModel] throws is a
    [TypeError]. *)
Theorem script_setup_only_unreadable_escapes (tan : Q -> Q) (pi : Q)
  (init : Occt.InitOutcome) (canvas : DOM.Canvas) (st : State) :
  completed (processFile tan pi init canvas ScriptSetup st) = true
  <-> throws_unreadable init st = false.
Proof.
  rewrite processFile_setup_completed. now destruct (throws_unreadable init st).
Qed.

(** X22. Every failure of the import capability, but a thrown value whose
    [message] cannot be read ([null], [undefined]), ends in one message on
    the page.  When the factory rejects or the entry point throws, [error]
    is "Error during OCCT import: " (in the Options-API script "Error during
    OCCT import initialization or processing: ") followed by the [message]
    of the thrown value ("undefined" when it has none), and [result] is
    null; when the entry point answers [success = false], [error] is "Import
    failed: " followed by the [error] of the result, or by "Unknown error."
    (Options API: "Unknown error occurred during import.") when that is
    missing or empty, and [result] holds the answer.  In each case
    [processFile] completes normally, [loading] is off and the model group
    holds no mesh. *)
Theorem failures_are_reported (tan : Q -> Q) (pi : Q) (init : Occt.InitOutcome)
  (canvas : DOM.Canvas) (v : Variant) (st : State) (bytes : list Byte.byte)
  (text : string) (reason : option string) (answer : option Occt.ImportResult) :
  fileContent st = Some bytes ->
  import_failure init v st bytes text reason answer ->
  completed (processFile tan pi init canvas v st) = true
  /\ error (state_of (processFile tan pi init canvas v st)) = Some text
  /\ loading (state_of (processFile tan pi init canvas v st)) = false
  /\ result (state_of (processFile tan pi init canvas v st)) = answer
  /\ group_empty (state_of (processFile tan pi init canvas v st)) = true
  /\ text <> EmptyString
  /\ (forall why, reason = Some why -> why <> EmptyString ->
      exists prefix, prefix <> EmptyString /\ text = (prefix ++ why)%string).
Proof.
  intros Hc Hfail.
  assert (Hgroup : forall s : State,
             modelGroup s
               = cleared_group (set_error None (set_result None (set_loading true st))) ->
             group_empty s = true).
  { intros s Hs. unfold group_empty. rewrite Hs. unfold cleared_group. simpl.
    now destruct (modelGroup st). }
  assert (Hthrown : forall e : JS.Thrown,
             exception_message v e = exception_text v (JS.message e)
             /\ exception_text v (JS.message e) <> EmptyString
             /\ (forall why, JS.message e = Some why -> why <> EmptyString ->
                 exists prefix, prefix <> EmptyString
                                /\ exception_text v (JS.message e) = (prefix ++ why)%string)).
  { intros [msg]. simpl. split; [|split].
    - destruct v, msg; reflexivity.
    - destruct v, msg; discriminate.
    - intros why -> _. destruct v.
      + exists "Error during OCCT import: ". split; [discriminate | reflexivity].
      + exists "Error during OCCT import initialization or processing: ".
        split; [discriminate | reflexivity]. }
  assert (Hfailed : forall r : Occt.ImportResult,
             import_failed_message v r = failure_text v (Occt.error r)
             /\ failure_text v (Occt.error r) <> EmptyString
             /\ (forall why, Occt.error r = Some why -> why <> EmptyString ->
                 exists prefix, prefix <> EmptyString
                                /\ failure_text v (Occt.error r) = (prefix ++ why)%string)).
  { intros [success msg meshes]. simpl. split; [|split].
    - destruct v, msg as [[|c why]|]; reflexivity.
    - destruct v, msg as [[|c why]|]; discriminate.
    - intros why -> Hne. destruct why as [|c why]; [contradiction|].
      exists "Import failed: ". split; [discriminate | reflexivity]. }
  destruct Hfail as [e Hinit | occt file f e Hinit Hf Hsel Hrun
                    | occt file f r Hinit Hf Hsel Hrun Hs]; subst init;
    crunch_processFile Hc; rewrite ?Hf, ?Hsel; simpl.
  - destruct (Hthrown e) as (-> & Hne & Hwhy).
    do 4 (split; [reflexivity|]). split; [now apply Hgroup|]. now split.
  - destruct (Hthrown e) as (Htext & Hne & Hwhy).
    destruct v; simpl; rewrite Hrun; simpl; rewrite Htext;
      do 4 (split; [reflexivity|]); (split; [now apply Hgroup|]); now split.
  - destruct (Hfailed r) as (Htext & Hne & Hwhy).
    destruct v; simpl; rewrite Hrun; simpl; rewrite Hs; simpl; rewrite Htext;
      do 4 (split; [reflexivity|]); (split; [now apply Hgroup|]); now split.
Qed.

Lemma failures_are_reported_witness :
  error (state_of (processFile sample_tan sample_pi (Occt.Resolved failing_module)
                     sample_canvas OptionsApi showing_triangle))
    = Some "Import failed: bad file"
  /\ group_empty (state_of (processFile sample_tan sample_pi (Occt.Resolved failing_module)
                              sample_canvas OptionsApi showing_triangle))
     = true
  /\ group_empty showing_triangle = false.
Proof.
  destruct (@failures_are_reported sample_tan sample_pi (Occt.Resolved failing_module)
              sample_canvas OptionsApi showing_triangle []
              "Import failed: bad file" (Some "bad file")
              (Some {| Occt.success := false; Occt.error := Some "bad file";
                       Occt.meshes := None |})
              eq_refl
              (@entry_unsuccessful (Occt.Resolved failing_module) OptionsApi
                 showing_triangle [] failing_module step_file
                 Occt.ReadStepFile
                 {| Occt.success := false; Occt.error := Some "bad file";
                    Occt.meshes := None |}
                 eq_refl eq_refl eq_refl eq_refl eq_refl))
    as (_ & Herror & _ & _ & Hgroup & _).
  split; [exact Herror|]. split; [exact Hgroup | reflexivity].
Defined.

(** X5. With the file content loaded, [processFile] always ends with
    [loading] off, on every path (unsupported name, failure, exception,
    success), and it never changes [selectedFile] or [fileContent]. *)
Theorem processFile_ends_loading (tan : Q -> Q) (pi : Q) (init : Occt.InitOutcome)
  (canvas : DOM.Canvas) (v : Variant) (st : State) (bytes : list Byte.byte) :
  fileContent st = Some bytes ->
  loading (state_of (processFile tan pi init canvas v st)) = false
  /\ selectedFile (state_of (processFile tan pi init canvas v st)) = selectedFile st
  /\ fileContent (state_of (processFile tan pi init canvas v st)) = Some bytes.
Proof.
  intros Hc.
  exact (processFile_always tan pi init canvas v st Hc).
Qed.

Lemma processFile_ends_loading_witness :
  loading (state_of (processFile sample_tan sample_pi
                       (Occt.Rejected {| JS.message := None |}) sample_canvas
                       OptionsApi (created (Some text_file) (Some [])))) = false.
Proof.
  destruct (@processFile_ends_loading sample_tan sample_pi
              (Occt.Rejected {| JS.message := None |}) sample_canvas OptionsApi
              (created (Some text_file) (Some [])) [] eq_refl) as (H & _).
  exact H.
Defined.

(** ** The file input *)

Lemma processFile_without_content (tan : Q -> Q) (pi : Q) (init : Occt.InitOutcome)
  (canvas : DOM.Canvas) (v : Variant) (st : State) :
  fileContent st = None ->
  processFile tan pi init canvas v st
    = Normal tt (set_error (Some "No file selected or file content not loaded.") st).
Proof. intros Hc. unfold processFile. run. now rewrite Hc. Qed.

(** X6. A new selection clears the form and the view: after
    [handleFileUpload], whatever was there before, [result], [error] and
    [fileContent] are null, the model group holds no mesh, and the file given
    to the reader is the first of the list (none for an empty list).  Until
    the reader delivers, or after it reported an error, [processFile] only
    sets the "No file selected or file content not loaded." message: the
    import library is not called and nothing else changes. *)
Theorem selection_resets (tan : Q -> Q) (pi : Q) (init : Occt.InitOutcome)
  (canvas : DOM.Canvas) (v : Variant) (files : list DOM.File) (err : string)
  (st : State) :
  result (fst (handleFileUpload files st)) = None
  /\ error (fst (handleFileUpload files st)) = None
  /\ fileContent (fst (handleFileUpload files st)) = None
  /\ selectedFile (fst (handleFileUpload files st)) = hd_error files
  /\ snd (handleFileUpload files st) = hd_error files
  /\ group_empty (fst (handleFileUpload files st)) = true
  /\ processFile tan pi init canvas v (fst (handleFileUpload files st))
     = Normal tt
         (set_error (Some "No file selected or file content not loaded.")
            (fst (handleFileUpload files st)))
  /\ processFile tan pi init canvas v
       (reader_onerror err (fst (handleFileUpload files st)))
     = Normal tt
         (set_error (Some "No file selected or file content not loaded.")
            (reader_onerror err (fst (handleFileUpload files st)))).
Proof.
  assert (Hfields :
            result (fst (handleFileUpload files st)) = None
            /\ error (fst (handleFileUpload files st)) = None
            /\ fileContent (fst (handleFileUpload files st)) = None
            /\ selectedFile (fst (handleFileUpload files st)) = hd_error files).
  { unfold handleFileUpload. simpl. rewrite clearModel_form. now repeat split. }
  destruct Hfields as (Hr & He & Hc & Hs).
  split; [exact Hr|]. split; [exact He|]. split; [exact Hc|]. split; [exact Hs|].
  split; [exact Hs|].
  split; [unfold handleFileUpload; simpl; apply clearModel_group_empty|].
  split; apply processFile_without_content; [exact Hc | reflexivity].
Qed.

Lemma processFile_result (tan : Q -> Q) (pi : Q) (init : Occt.InitOutcome)
  (canvas : DOM.Canvas) (v : Variant) (st : State) (bytes : list Byte.byte) :
  fileContent st = Some bytes ->
  result (state_of (processFile tan pi init canvas v st))
    = match init, selectedFile st with
      | Occt.Resolved occt, Some file =>
          match importFunction (JS.toLowerCase (DOM.name file)) with
          | Some f =>
              match Occt.entry occt f bytes params with
              | Occt.Returned r => Some r
              | Occt.Raised _ => None
              end
          | None => None
          end
      | _, _ => None
      end.
Proof.
  intros Hc. crunch_processFile Hc.
  destruct init as [occt|[|e0]]; simpl; [|reflexivity..].
  destruct (selectedFile st) as [file|]; simpl; [|reflexivity].
  destruct (importFunction (JS.toLowerCase (DOM.name file))) as [f|]; simpl;
    [|reflexivity].
  destruct v; simpl; destruct (Occt.entry occt f bytes params) as [r|[|e]]; simpl;
    try reflexivity; destruct (Occt.success r) eqn:Hs; simpl; try reflexivity.
  all: match goal with
       | |- context [renderModel ?a ?b ?c ?d ?s] =>
           pose proof (keeps_refs_renderModel a b c d s) as Hk;
           destruct (renderModel a b c d s) as [u s1|[|e1] s1];
           unfold refs in Hk; simpl in Hk;
           injection Hk as H1 H2 H3 H4 H5
       end; simpl; exact H4.
Qed.

(** X7. From the selection to the import: once [handleFileUpload] has taken
    a file whose name has a supported extension and the reader has delivered
    its bytes, [processFile] calls the factory and then exactly the entry
    point of that extension, on those bytes with the fixed parameters, and
    [result] holds what the entry point answered, successful or not. *)
Theorem selected_file_is_imported (tan : Q -> Q) (pi : Q) (canvas : DOM.Canvas)
  (v : Variant) (file : DOM.File) (others : list DOM.File) (bytes : list Byte.byte)
  (occt : Occt.Module_) (f : Occt.ImportEntry) (r : Occt.ImportResult) (st : State) :
  importFunction (JS.toLowerCase (DOM.name file)) = Some f ->
  Occt.entry occt f bytes params = Occt.Returned r ->
  result (state_of (processFile tan pi (Occt.Resolved occt) canvas v
                      (reader_onload bytes (fst (handleFileUpload (file :: others) st)))))
    = Some r
  /\ exists new,
       trace (state_of (processFile tan pi (Occt.Resolved occt) canvas v
                          (reader_onload bytes
                             (fst (handleFileUpload (file :: others) st)))))
         = trace (reader_onload bytes (fst (handleFileUpload (file :: others) st)))
             ++ new
       /\ occt_calls new = [OcctInit; OcctImport f].
Proof.
  intros Hsel Hrun.
  assert (Hfile : selectedFile
                    (reader_onload bytes (fst (handleFileUpload (file :: others) st)))
                  = Some file).
  { unfold reader_onload, handleFileUpload. simpl. now rewrite clearModel_form. }
  split.
  - rewrite (@processFile_result tan pi (Occt.Resolved occt) canvas v
               (reader_onload bytes (fst (handleFileUpload (file :: others) st)))
               bytes eq_refl).
    now rewrite Hfile, Hsel, Hrun.
  - now apply processFile_supported_calls with (bytes := bytes) (file := file).
Qed.

Lemma selected_file_is_imported_witness :
  result (state_of (processFile sample_tan sample_pi (Occt.Resolved sample_module)
                      sample_canvas ScriptSetup
                      (reader_onload []
                         (fst (handleFileUpload [step_file] showing_triangle)))))
    = Some sample_result.
Proof.
  apply (@selected_file_is_imported sample_tan sample_pi sample_canvas ScriptSetup
           step_file [] [] sample_module Occt.ReadStepFile sample_result
           showing_triangle eq_refl eq_refl).
Defined.

(** X8. [result] after [processFile] (file content loaded) is the answer of
    the entry point exactly when one was called and returned; it is null
    when the factory rejects, when no file is selected, when the extension
    is not supported and when the entry point throws. *)
Theorem result_is_the_answer (tan : Q -> Q) (pi : Q) (init : Occt.InitOutcome)
  (canvas : DOM.Canvas) (v : Variant) (st : State) (bytes : list Byte.byte) :
  fileContent st = Some bytes ->
  (forall r, result (state_of (processFile tan pi init canvas v st)) = Some r <->
     exists occt file f,
       init = Occt.Resolved occt
       /\ selectedFile st = Some file
       /\ importFunction (JS.toLowerCase (DOM.name file)) = Some f
       /\ Occt.entry occt f bytes params = Occt.Returned r).
Proof.
  intros Hc r. rewrite (processFile_result tan pi init canvas v st Hc).
  split.
  - destruct init as [occt|e0]; [|discriminate].
    destruct (selectedFile st) as [file|]; [|discriminate].
    destruct (importFunction (JS.toLowerCase (DOM.name file))) as [f|] eqn:Hsel;
      [|discriminate].
    destruct (Occt.entry occt f bytes params) as [r0|e] eqn:Hrun; [|discriminate].
    intros [= ->]. now exists occt, file, f.
  - intros (occt & file & f & -> & Hf & Hsel & Hrun). now rewrite Hf, Hsel, Hrun.
Qed.

Lemma result_is_the_answer_witness :
  result (state_of (processFile sample_tan sample_pi (Occt.Resolved sample_module)
                      sample_canvas OptionsApi (created (Some text_file) (Some []))))
    <> Some sample_result.
Proof.
  intros H.
  apply (@result_is_the_answer sample_tan sample_pi (Occt.Resolved sample_module)
           sample_canvas OptionsApi (created (Some text_file) (Some [])) []
           eq_refl) in H.
  destruct H as (occt & file & f & _ & Hf & Hsel & _).
  injection Hf as <-. discriminate Hsel.
Defined.

(** ** The dispatch, completely *)

Lemma importFunction_sound (s : string) (f : Occt.ImportEntry) :
  importFunction s = Some f ->
  exists base ext, s = (base ++ ext)%string /\ In ext (extensions_of f).
Proof.
  unfold importFunction.
  destruct (JS.endsWith s ".step") eqn:E1; simpl.
  { intros [= <-]. destruct (JSFacts.endsWith_true _ _ E1) as (pre & ->).
    exists pre, ".step". simpl. auto. }
  destruct (JS.endsWith s ".stp") eqn:E2; simpl.
  { intros [= <-]. destruct (JSFacts.endsWith_true _ _ E2) as (pre & ->).
    exists pre, ".stp". simpl. auto. }
  destruct (JS.endsWith s ".iges") eqn:E3; simpl.
  { intros [= <-]. destruct (JSFacts.endsWith_true _ _ E3) as (pre & ->).
    exists pre, ".iges". simpl. auto. }
  destruct (JS.endsWith s ".igs") eqn:E4; simpl.
  { intros [= <-]. destruct (JSFacts.endsWith_true _ _ E4) as (pre & ->).
    exists pre, ".igs". simpl. auto. }
  destruct (JS.endsWith s ".brep") eqn:E5; simpl; [|discriminate].
  intros [= <-]. destruct (JSFacts.endsWith_true _ _ E5) as (pre & ->).
  exists pre, ".brep". simpl. auto.
Qed.

(** X9. The dispatch is exact: [importFunction] selects an entry point if
    and only if the name ends in one of the extensions of that entry point,
    and it selects none if and only if the name ends in none of the five
    extensions; the order of the tests never decides. *)
Theorem dispatch_exact (s : string) :
  (forall f, importFunction s = Some f <->
     exists base ext, s = (base ++ ext)%string /\ In ext (extensions_of f))
  /\ (importFunction s = None <->
      forall base ext, In ext supported_extensions -> s <> (base ++ ext)%string).
Proof.
  assert (Hiff : forall f, importFunction s = Some f <->
            exists base ext, s = (base ++ ext)%string /\ In ext (extensions_of f)).
  { intros f. split; [apply importFunction_sound|].
    intros (base & ext & -> & Hin). now apply importFunction_selects. }
  split; [exact Hiff|]. split.
  - intros Hnone base ext Hin ->.
    assert (Hsome : exists f, In ext (extensions_of f)).
    { simpl in Hin.
      destruct Hin as [<-|[<-|[<-|[<-|[<-|[]]]]]];
        [exists Occt.ReadStepFile | exists Occt.ReadStepFile | exists Occt.ReadIgesFile
        | exists Occt.ReadIgesFile | exists Occt.ReadBrepFile]; simpl; auto. }
    destruct Hsome as (f & Hf).
    rewrite (importFunction_selects f base ext Hf) in Hnone. discriminate.
  - intros Hno. destruct (importFunction s) as [f|] eqn:E; [|reflexivity].
    destruct (importFunction_sound s E) as (base & ext & -> & Hin).
    exfalso. apply (Hno base ext); [|reflexivity].
    destruct f; simpl in *; intuition.
Qed.

(** X10. Every file the file input accepts is dispatched: a name ending, in
    any letter case, in one of the extensions of the [accept] attribute
    selects an entry point.  The converse fails: [.igs] selects the IGES
    reader although the input does not list it. *)
Theorem accepted_files_are_dispatched (base ext : string) :
  (In (JS.toLowerCase ext) accept ->
   importFunction (JS.toLowerCase (base ++ ext)) <> None)
  /\ ~ In ".igs" accept
  /\ (JS.toLowerCase ext = ".igs" ->
      importFunction (JS.toLowerCase (base ++ ext)) = Some Occt.ReadIgesFile).
Proof.
  split; [|split].
  - unfold accept. simpl. intros [H|[H|[H|[H|[]]]]];
      [rewrite (@importFunction_case_insensitive Occt.ReadStepFile base ext)
      |rewrite (@importFunction_case_insensitive Occt.ReadStepFile base ext)
      |rewrite (@importFunction_case_insensitive Occt.ReadIgesFile base ext)
      |rewrite (@importFunction_case_insensitive Occt.ReadBrepFile base ext)];
      try discriminate; rewrite <- H; simpl; auto.
  - unfold accept. simpl. intros [H|[H|[H|[H|[]]]]]; discriminate.
  - intros H. apply importFunction_case_insensitive. rewrite H. simpl. auto.
Qed.

Lemma accepted_files_are_dispatched_witness :
  importFunction (JS.toLowerCase ("Gear" ++ ".IGES")) <> None.
Proof.
  apply (proj1 (accepted_files_are_dispatched "Gear" ".IGES")). simpl. auto.
Defined.

(** ** renderModel at the edges *)

(** X11. Without a scene and without a canvas [renderModel] gives up at
    once: it completes normally, builds no mesh whatever the records are,
    and leaves the model group, the camera, the controls and the allocator
    untouched; the Options-API script logs one console error, the
    [<script setup>] script records nothing. *)
Theorem render_without_canvas (tan : Q -> Q) (pi : Q) (v : Variant)
  (importResult : option Occt.ImportResult) (st : State) :
  scene st = None ->
  threeCanvas st = None ->
  completed (renderModel tan pi v importResult st) = true
  /\ modelGroup (state_of (renderModel tan pi v importResult st)) = modelGroup st
  /\ camera (state_of (renderModel tan pi v importResult st)) = camera st
  /\ controls (state_of (renderModel tan pi v importResult st)) = controls st
  /\ scene (state_of (renderModel tan pi v importResult st)) = None
  /\ next_id (state_of (renderModel tan pi v importResult st)) = next_id st
  /\ trace (state_of (renderModel tan pi v importResult st))
     = trace st
         ++ match v with
            | ScriptSetup => []
            | OptionsApi =>
                [ConsoleError
                   "Three.js scene still not initialized after attempt. Cannot render model."]
            end.
Proof.
  intros Hs Hc. rewrite (renderModel_idle tan pi v importResult st Hs Hc).
  destruct v; simpl; rewrite ?app_nil_r; now repeat split.
Qed.

Lemma render_without_canvas_witness :
  modelGroup (state_of (renderModel sample_tan sample_pi OptionsApi (Some sample_result)
                          (created (Some step_file) (Some [])))) = None.
Proof.
  apply (@render_without_canvas sample_tan sample_pi OptionsApi (Some sample_result)
           (created (Some step_file) (Some [])) eq_refl eq_refl).
Defined.

(** X12. An import result without records (no result, no [meshes], or an
    empty list) is not an error: when the scene can be rendered,
    [renderModel] completes normally, releases what the model group held and
    leaves it empty, puts the camera at (5,5,5) aimed at the origin and the
    orbit target at the origin. *)
Theorem render_without_records (tan : Q -> Q) (pi : Q) (v : Variant)
  (importResult : option Occt.ImportResult) (st : State) :
  can_render st = true ->
  match importResult with
  | Some {| Occt.meshes := Some (_ :: _) |} => False
  | _ => True
  end ->
  exists st1 cam,
    renderModel tan pi v importResult st = Normal tt st1
    /\ modelGroup st1 = Some {| THREE.children := [] |}
    /\ camera st1 = Some cam
    /\ THREE.position cam = THREE.vec 5 5 5
    /\ THREE.lookAt cam = Some (THREE.vec 0 0 0)
    /\ controls st1 = option_map (set_target (THREE.vec 0 0 0)) (controls (prepared st))
    /\ trace st1
       = trace (prepared st) ++ no_meshes_events v ++ controls_events (prepared st).
Proof.
  intros Hcan Hnone.
  destruct (prepared_ready st Hcan) as (cam & Hgroup & Hcam & _).
  rewrite (renderModel_no_records tan pi v importResult st Hcan Hnone).
  match goal with
  | |- context [resetCameraView ?s] =>
      assert (Hcams : camera s = Some cam) by (destruct v; exact Hcam);
      destruct (resetCameraView_fields s Hcams) as (Hc & Hctl & Htr & Hg)
  end.
  eexists _, _. split; [reflexivity|]. rewrite Hg, Hc, Hctl, Htr.
  split; [destruct v; exact Hgroup|]. split; [reflexivity|].
  split; [apply placed_camera_default|]. split; [apply placed_camera_aim|].
  unfold controls_events, no_meshes_events.
  destruct v; simpl; rewrite <- ?app_assoc; now split.
Qed.

Lemma render_without_records_witness :
  exists st1,
    renderModel sample_tan sample_pi ScriptSetup None showing_triangle = Normal tt st1
    /\ modelGroup st1 = Some {| THREE.children := [] |}.
Proof.
  destruct (@render_without_records sample_tan sample_pi ScriptSetup None
              showing_triangle eq_refl I)
    as (st1 & cam & Hrun & Hgroup & _).
  exists st1. now split.
Defined.

Lemma renderModel_live (tan : Q -> Q) (pi : Q) (v : Variant)
  (importResult : option Occt.ImportResult) (st : State) :
  can_render st = true ->
  live (state_of (renderModel tan pi v importResult st)) = true.
Proof.
  intros Hcan. pose proof (can_render_live st Hcan) as Hlive.
  destruct importResult as [[success error_text [[|m rest]|]]|].
  2:{ destruct (prepared_ready st Hcan) as (cam & Hgroup & Hcam & _).
      rewrite (@renderModel_spec tan pi v
                 {| Occt.success := success; Occt.error := error_text;
                    Occt.meshes := Some (m :: rest) |}
                 (m :: rest) cam st Hcan Hcam Hgroup eq_refl).
      simpl.
      destruct (rendered_fields tan pi v (m :: rest) cam st)
        as (Hg & Hc & _ & _ & Hsc & Hr & _).
      unfold live in *. rewrite Hg, Hc, Hsc, Hr.
      destruct (scene (prepared st)), (renderer (prepared st)); try reflexivity;
        simpl in Hlive; try discriminate;
        destruct (camera (prepared st)); discriminate. }
  all: rewrite renderModel_no_records by (exact Hcan || exact I);
    simpl; apply live_resetCameraView; destruct v; exact Hlive.
Qed.

(** ** Mounting and unmounting *)

(** X13. Mounting does not initialise the scene: the canvas sits under
    [v-if="result && result.success"], so while no successful result is
    shown the mount callback finds no canvas and [initThreeDScene] returns
    without creating anything.  The scene is created by the first
    [renderModel] that finds the canvas: it ends with a scene, a camera, a
    renderer and a model group. *)
Theorem scene_is_created_by_first_render (tan : Q -> Q) (pi : Q) (v : Variant)
  (canvas : DOM.Canvas) (importResult : option Occt.ImportResult) (st : State) :
  match result st with Some r => Occt.success r = false | None => True end ->
  scene st = None ->
  onMounted_tick canvas st = set_threeCanvas None st
  /\ scene (onMounted_tick canvas st) = None
  /\ live (state_of (renderModel tan pi v importResult
                       (set_threeCanvas (Some canvas) (onMounted_tick canvas st))))
     = true.
Proof.
  intros Hresult Hscene.
  assert (Htick : onMounted_tick canvas st = set_threeCanvas None st).
  { unfold onMounted_tick, nextTick, modify, initThreeDScene. simpl.
    destruct (result st) as [r|]; [rewrite Hresult|]; reflexivity. }
  split; [exact Htick|]. rewrite Htick. split; [exact Hscene|].
  apply renderModel_live. unfold can_render, scene_ready. simpl. now rewrite Hscene.
Qed.

Lemma scene_is_created_by_first_render_witness :
  scene (onMounted_tick sample_canvas (created None None)) = None.
Proof.
  apply (@scene_is_created_by_first_render sample_tan sample_pi ScriptSetup
           sample_canvas None (created None None) I eq_refl).
Defined.

(** X14. With a canvas, [initThreeDScene] creates the scene, the camera at
    (5,5,5) with a 75 degree field of view and the aspect of the canvas, the
    renderer, the controls aimed at the origin and an empty model group, and
    starts the frame loop; the teardown that follows cancels exactly the
    frame [animate] requested, then releases the renderer and the controls,
    and has no geometry or material to release. *)
Theorem init_then_teardown (v : Variant) (canvas : DOM.Canvas) (st : State) :
  threeCanvas st = Some canvas ->
  live (initThreeDScene st) = true
  /\ modelGroup (initThreeDScene st) = Some {| THREE.children := [] |}
  /\ (exists cam,
        camera (initThreeDScene st) = Some cam
        /\ THREE.position cam = THREE.vec 5 5 5
        /\ THREE.fov cam = 75
        /\ THREE.aspect cam = DOM.clientWidth canvas / DOM.clientHeight canvas)
  /\ option_map THREE.target (controls (initThreeDScene st)) = Some (THREE.vec 0 0 0)
  /\ animationFrameId (initThreeDScene st) = Some (S (next_id st))
  /\ trace (initThreeDScene st)
     = trace st ++ [RequestAnimationFrame (S (next_id st)); ControlsUpdate; RendererRender]
  /\ trace (beforeUnmount v (initThreeDScene st))
     = trace (initThreeDScene st)
         ++ [CancelAnimationFrame (S (next_id st)); RendererDispose; ControlsDispose;
             RemoveResizeListener].
Proof.
  intros Hc.
  assert (Hinit : initThreeDScene st
                  = animate
                      (set_modelGroup (Some {| THREE.children := [] |})
                         (set_controls
                            (Some {| THREE.target := THREE.vec 0 0 0;
                                     THREE.enableDamping := true;
                                     THREE.dampingFactor := 1 # 4;
                                     THREE.screenSpacePanning := false |})
                            (set_renderer (Some {| THREE.antialias := true |})
                               (set_camera
                                  (Some {| THREE.fov := 75;
                                           THREE.aspect :=
                                             DOM.clientWidth canvas
                                             / DOM.clientHeight canvas;
                                           THREE.near := 1 # 10; THREE.far := 1000;
                                           THREE.position := THREE.vec 5 5 5;
                                           THREE.lookAt := None |})
                                  (set_scene
                                     (Some {| THREE.background := 0xf0f0f0;
                                              THREE.lights :=
                                                [THREE.AmbientLight 0xffffff (1 # 2);
                                                 THREE.DirectionalLight 0xffffff
                                                   (8 # 10)] |})
                                     st)))))).
  { unfold initThreeDScene. now rewrite Hc. }
  rewrite beforeUnmount_trace. rewrite Hinit, animate_form. simpl.
  repeat split. eexists. now repeat split.
Qed.

Lemma init_then_teardown_witness :
  trace (beforeUnmount OptionsApi
           (initThreeDScene (set_threeCanvas (Some sample_canvas) (created None None))))
  = trace (initThreeDScene (set_threeCanvas (Some sample_canvas) (created None None)))
      ++ [CancelAnimationFrame 1; RendererDispose; ControlsDispose; RemoveResizeListener].
Proof.
  apply (@init_then_teardown OptionsApi sample_canvas
           (set_threeCanvas (Some sample_canvas) (created None None)) eq_refl).
Defined.

(** ** Importing again *)

Lemma count_warnings (p : Event -> bool) (es : list Event) :
  (forall text, p (ConsoleWarn text) = false) ->
  Forall (fun e => exists text, e = ConsoleWarn text) es ->
  count p es = 0%nat.
Proof.
  intros Hp Hall. unfold count.
  induction Hall as [|e es (text & ->) _ IH]; simpl; [reflexivity|].
  now rewrite Hp.
Qed.

Lemma count_controls_events (p : Event -> bool) (st : State) :
  p ControlsUpdate = false -> count p (controls_events st) = 0%nat.
Proof.
  intros Hp. unfold controls_events, count. destruct (controls st); simpl;
    [now rewrite Hp | reflexivity].
Qed.

Lemma live_can_render (st : State) :
  live st = true -> can_render st = true /\ prepared st = clearModel st.
Proof.
  unfold live, can_render, prepared, scene_ready.
  destruct (scene st), (camera st), (renderer st), (modelGroup st);
    try discriminate; now split.
Qed.

(** X15. Importing again releases what was shown first: when [renderModel]
    runs on the state a previous [renderModel] left, it first disposes the
    geometry and the material of every mesh of the previous import, each
    exactly once and in order, before it records anything else, and the
    model group then holds the meshes of the new records only. *)
Theorem rerender_releases_previous (tan : Q -> Q) (pi : Q) (v : Variant)
  (r1 r2 : Occt.ImportResult) (records1 records2 : list Occt.MeshRecord) (st : State) :
  can_render st = true ->
  Occt.meshes r1 = Some records1 ->
  Occt.meshes r2 = Some records2 ->
  exists st1 old st2 new later,
    renderModel tan pi v (Some r1) st = Normal tt st1
    /\ modelGroup st1 = Some {| THREE.children := old |}
    /\ renderModel tan pi v (Some r2) st1 = Normal tt st2
    /\ modelGroup st2 = Some {| THREE.children := new |}
    /\ Forall2 built_from (filter valid records2) new
    /\ trace st2 = trace st1 ++ flat_map dispose_object old ++ later
    /\ (forall mesh, In mesh old ->
        exists geo mat,
          THREE.geometry mesh = Some geo
          /\ THREE.material mesh = THREE.OneMaterial mat
          /\ count (releases_geometry (THREE.geometry_id geo))
               (flat_map dispose_object old ++ later) = 1%nat
          /\ count (releases_material (THREE.material_id mat))
               (flat_map dispose_object old ++ later) = 1%nat)
    /\ count is_geometry_release (flat_map dispose_object old ++ later)
       = List.length old
    /\ count is_material_release (flat_map dispose_object old ++ later)
       = List.length old.
Proof.
  intros Hcan Hm1 Hm2.
  destruct (prepared_ready st Hcan) as (cam & Hgroup & Hcam & _).
  pose proof (@renderModel_spec tan pi v r1 records1 cam st Hcan Hcam Hgroup Hm1) as Hrun1.
  destruct (rendered_fields tan pi v records1 cam st) as (Hg1 & _).
  set (st1 := rendered tan pi v records1 cam st) in *.
  assert (Hlive1 : live st1 = true).
  { pose proof (renderModel_live tan pi v (Some r1) st Hcan) as H.
    now rewrite Hrun1 in H. }
  destruct (live_can_render st1 Hlive1) as (Hcan1 & Hprep1).
  destruct (prepared_ready st1 Hcan1) as (cam1 & Hgroup1 & Hcam1 & _).
  pose proof (@renderModel_spec tan pi v r2 records2 cam1 st1 Hcan1 Hcam1 Hgroup1 Hm2)
    as Hrun2.
  destruct (rendered_fields tan pi v records2 cam1 st1) as (Hg2 & _ & _ & Htr2 & _).
  set (old := materialized (next_id (prepared st)) records1) in *.
  assert (Htrace1 : trace (prepared st1) = trace st1 ++ flat_map dispose_object old).
  { rewrite Hprep1, (clearModel_spec st1 Hg1). reflexivity. }
  exists st1, old, (rendered tan pi v records2 cam1 st1),
    (materialized (next_id (prepared st1)) records2),
    (loop_events v records2 ++ controls_events (prepared st1)).
  split; [exact Hrun1|]. split; [exact Hg1|]. split; [exact Hrun2|].
  split; [exact Hg2|]. split; [apply materialized_built_from|].
  split; [rewrite Htr2, Htrace1; now rewrite <- app_assoc|].
  assert (Hlater : forall p,
             (forall text, p (ConsoleWarn text) = false) ->
             p ControlsUpdate = false ->
             count p (flat_map dispose_object old
                        ++ loop_events v records2 ++ controls_events (prepared st1))
             = count p (flat_map dispose_object old)).
  { intros p Hw Hc. rewrite !count_app.
    rewrite (count_warnings p Hw (loop_events_are_warnings v records2)).
    rewrite (count_controls_events p (prepared st1) Hc). lia. }
  split; [|split].
  - intros mesh Hin.
    destruct (releases_once records1 _ _ Hin) as (geo & mat & Hgeo & Hmat & H1 & H2).
    exists geo, mat. split; [exact Hgeo|]. split; [exact Hmat|].
    rewrite !Hlater by reflexivity. now split.
  - rewrite Hlater by reflexivity. apply releases_total.
  - rewrite Hlater by reflexivity. apply releases_total.
Qed.

Lemma rerender_releases_previous_witness :
  exists st1 old st2,
    renderModel sample_tan sample_pi ScriptSetup (Some sample_result)
      (mounted (Some step_file) (Some [])) = Normal tt st1
    /\ modelGroup st1 = Some {| THREE.children := old |}
    /\ renderModel sample_tan sample_pi ScriptSetup (Some hollow_result) st1
       = Normal tt st2
    /\ exists later, trace st2 = trace st1 ++ flat_map dispose_object old ++ later.
Proof.
  destruct (@rerender_releases_previous sample_tan sample_pi ScriptSetup sample_result
              hollow_result [broken; triangle; broken] [hollow]
              (mounted (Some step_file) (Some [])) eq_refl eq_refl eq_refl)
    as (st1 & old & st2 & new & later & H1 & H2 & H3 & _ & _ & H4 & _).
  exists st1, old, st2. repeat split; try assumption. now exists later.
Defined.

Lemma render_without_records_aux (tan : Q -> Q) (pi : Q) (v : Variant)
  (importResult : option Occt.ImportResult) (st : State) :
  can_render st = true ->
  match importResult with
  | Some {| Occt.meshes := Some (_ :: _) |} => False
  | _ => True
  end ->
  exists st1 cam,
    renderModel tan pi v importResult st = Normal tt st1
    /\ camera st1 = Some cam
    /\ THREE.lookAt cam = Some (THREE.vec 0 0 0)
    /\ controls st1 = option_map (set_target (THREE.vec 0 0 0)) (controls (prepared st)).
Proof.
  intros Hcan Hnone.
  destruct (prepared_ready st Hcan) as (cam & Hgroup & Hcam & _).
  rewrite (renderModel_no_records tan pi v importResult st Hcan Hnone).
  match goal with
  | |- context [resetCameraView ?s] =>
      assert (Hcams : camera s = Some cam) by (destruct v; exact Hcam);
      destruct (resetCameraView_fields s Hcams) as (Hc & Hctl & _)
  end.
  eexists _, _. split; [reflexivity|]. rewrite Hc, Hctl.
  split; [reflexivity|]. split; [apply placed_camera_aim|]. now destruct v.
Qed.

(** X16. After [renderModel] the camera looks at the orbit target: whenever
    the scene can be rendered, and whatever the import result is, the camera
    is aimed at a point and the target of the controls, if there are
    controls, is that same point. *)
Theorem camera_looks_at_orbit_target (tan : Q -> Q) (pi : Q) (v : Variant)
  (importResult : option Occt.ImportResult) (st : State) :
  can_render st = true ->
  exists st1 cam aim,
    renderModel tan pi v importResult st = Normal tt st1
    /\ camera st1 = Some cam
    /\ THREE.lookAt cam = Some aim
    /\ forall c, controls st1 = Some c -> THREE.target c = aim.
Proof.
  intros Hcan.
  destruct (prepared_ready st Hcan) as (cam & Hgroup & Hcam & _).
  destruct importResult as [[success error_text [[|m rest]|]]|].
  2:{ rewrite (@renderModel_spec tan pi v
                 {| Occt.success := success; Occt.error := error_text;
                    Occt.meshes := Some (m :: rest) |}
                 (m :: rest) cam st Hcan Hcam Hgroup eq_refl).
      destruct (rendered_fields tan pi v (m :: rest) cam st) as (_ & Hc & Hctl & _).
      eexists _, _, _. split; [reflexivity|]. split; [exact Hc|].
      split; [apply placed_camera_aim|]. intros c. rewrite Hctl.
      destruct (controls (prepared st)); simpl; [|discriminate].
      now intros [= <-]. }
  all: match goal with
       | |- context [renderModel ?a ?b ?c ?d ?s] =>
           destruct (@render_without_records_aux a b c d s Hcan I)
             as (st1 & cam1 & Hrun & Hcam1 & Haim & Hctl)
       end;
    exists st1, cam1, (THREE.vec 0 0 0); (split; [exact Hrun|]);
    (split; [exact Hcam1|]); (split; [exact Haim|]);
    intros c; rewrite Hctl; (destruct (controls (prepared st)); simpl; [|discriminate]);
    now intros [= <-].
Qed.

Lemma camera_looks_at_orbit_target_witness :
  exists st1 cam aim,
    renderModel sample_tan sample_pi OptionsApi (Some sample_result) showing_triangle
      = Normal tt st1
    /\ camera st1 = Some cam
    /\ THREE.lookAt cam = Some aim
    /\ forall c, controls st1 = Some c -> THREE.target c = aim.
Proof.
  exact (@camera_looks_at_orbit_target sample_tan sample_pi OptionsApi
           (Some sample_result) showing_triangle eq_refl).
Defined.

(** ** Numbers *)

(** X18. [onWindowResize] does nothing unless the canvas, the camera and the
    renderer are all there.  When they are, for a positive parent width [w]
    the renderer is sized to [w] by [min (0.75 w, 500)], so the height never
    exceeds 500, the camera aspect becomes width over height and is at least
    4/3; the rest of the camera and of the state is untouched. *)
Theorem resize_keeps_wide_aspect (w : Q) (st : State) :
  ((threeCanvas st = None \/ camera st = None \/ renderer st = None) ->
   onWindowResize w st = (st, None))
  /\ (forall canvas cam rdr,
        threeCanvas st = Some canvas -> camera st = Some cam -> renderer st = Some rdr ->
        0 < w ->
        exists h,
          onWindowResize w st
            = (set_camera (Some (set_aspect (w / h) cam)) st, Some (w, h))
          /\ h <= 500 /\ h <= w * (3 # 4) /\ 0 < h
          /\ 4 # 3 <= w / h
          /\ Qgtb (w / h) 1 = true).
Proof.
  split.
  - unfold onWindowResize. intros [H|[H|H]]; rewrite H;
      destruct (threeCanvas st); try reflexivity; destruct (camera st); reflexivity.
  - intros canvas cam rdr Hc Hcam Hr Hw. unfold onWindowResize.
    rewrite Hc, Hcam, Hr. exists (Qmin (w * (3 # 4)) 500).
    split; [reflexivity|].
    assert (H1 : Qmin (w * (3 # 4)) 500 <= 500) by apply Q.le_min_r.
    assert (H2 : Qmin (w * (3 # 4)) 500 <= w * (3 # 4)) by apply Q.le_min_l.
    assert (H3 : 0 < Qmin (w * (3 # 4)) 500) by (apply Q.min_glb_lt; lra).
    assert (H4 : 4 # 3 <= w / Qmin (w * (3 # 4)) 500)
      by (apply Qle_shift_div_l; [exact H3 | lra]).
    repeat split; try assumption. apply Qgtb_true. lra.
Qed.

Lemma resize_keeps_wide_aspect_witness :
  exists h, snd (onWindowResize 1200 (mounted None None)) = Some (1200, h) /\ h <= 500.
Proof.
  destruct (camera (mounted None None)) as [cam|] eqn:Hcam; [|discriminate Hcam].
  destruct (proj2 (resize_keeps_wide_aspect 1200 (mounted None None))
              sample_canvas cam {| THREE.antialias := true |} eq_refl Hcam eq_refl)
    as (h & Hrun & Hh & _); [reflexivity|].
  exists h. split; [now rewrite Hrun | exact Hh].
Defined.

(** X19. The element width always suffices for well-formed indices: when
    every value of [index.array] is a vertex index (at least 0 and below the
    vertex count) and the vertex count is at most [2 ^ 32], the index buffer
    holds exactly the values of [index.array]; nothing wraps. *)
Theorem valid_indices_are_kept (pos : list Q) (idx : list Z) :
  (forall i, In i idx -> (0 <= i)%Z /\ inject_Z i < vertex_count pos) ->
  vertex_count pos <= 4294967296 ->
  THREE.elements (new_index_array (THREE.new_Float32Array pos) idx) = idx.
Proof.
  intros Hidx Hmax. unfold new_index_array, THREE.new_Float32Array.
  fold (vertex_count pos).
  assert (Hmap : forall m, (0 < m)%Z -> vertex_count pos <= inject_Z m ->
                 map (fun v => (v mod m)%Z) idx = idx).
  { intros m Hm Hle. rewrite <- (map_id idx) at 2. apply map_ext_in.
    intros i Hin. destruct (Hidx i Hin) as (H0 & Hlt).
    apply Z.mod_small. split; [exact H0|].
    rewrite Zlt_Qlt. exact (Qlt_le_trans _ _ _ Hlt Hle). }
  destruct (Qgtb (vertex_count pos) 65535) eqn:E; simpl.
  - apply Hmap; [reflexivity | exact Hmax].
  - apply Qgtb_false in E. apply Hmap; [reflexivity|].
    apply (Qle_trans _ _ _ E). discriminate.
Qed.

Lemma valid_indices_are_kept_witness :
  THREE.elements
    (new_index_array (THREE.new_Float32Array [0; 0; 0; 1; 0; 0; 0; 1; 0]) [0; 1; 2]%Z)
  = [0; 1; 2]%Z.
Proof.
  apply (@valid_indices_are_kept [0; 0; 0; 1; 0; 0; 0; 1; 0] [0; 1; 2]%Z).
  - intros i [<-|[<-|[<-|[]]]]; split; vm_compute; congruence.
  - vm_compute. discriminate.
Defined.

(** X20. A successful import, end to end: with the file content loaded, a
    supported name, the factory resolved and the entry point answering
    [success = true] with some records, [processFile] completes normally
    from any state where the Three.js variables go together; [result] holds
    the answer, [error] is null, [loading] is off, the scene is there with
    its camera, renderer and model group, and the group holds one mesh per
    valid record, in order. *)
Theorem successful_import (tan : Q -> Q) (pi : Q) (canvas : DOM.Canvas)
  (v : Variant) (st : State) (bytes : list Byte.byte) (file : DOM.File)
  (occt : Occt.Module_) (f : Occt.ImportEntry) (r : Occt.ImportResult)
  (records : list Occt.MeshRecord) :
  wired st = true ->
  fileContent st = Some bytes ->
  selectedFile st = Some file ->
  importFunction (JS.toLowerCase (DOM.name file)) = Some f ->
  Occt.entry occt f bytes params = Occt.Returned r ->
  Occt.success r = true ->
  Occt.meshes r = Some records ->
  exists st1 meshes,
    processFile tan pi (Occt.Resolved occt) canvas v st = Normal tt st1
    /\ result st1 = Some r
    /\ error st1 = None
    /\ loading st1 = false
    /\ modelGroup st1 = Some {| THREE.children := meshes |}
    /\ Forall2 built_from (filter valid records) meshes
    /\ List.length meshes = List.length (filter valid records).
Proof.
  intros Hw Hc Hf Hsel Hrun Hs Hmeshes.
  assert (Hwf : scene_ready st = true -> modelGroup st <> None).
  { unfold scene_ready. intros Hready. unfold wired, live in Hw.
    destruct (scene st), (camera st), (renderer st), (modelGroup st);
      simpl in *; discriminate. }
  destruct (processFile_success tan pi canvas v st occt Hc Hf Hsel Hrun Hs Hmeshes Hwf)
    as (st1 & meshes & Hp & Hg & Hb & He & Hl).
  exists st1, meshes.
  pose proof (processFile_result tan pi (Occt.Resolved occt) canvas v st Hc) as Hr.
  rewrite Hp, Hf, Hsel, Hrun in Hr. simpl in Hr.
  repeat split; try assumption. symmetry. exact (Forall2_length Hb).
Qed.

Lemma successful_import_witness :
  exists st1 meshes,
    processFile sample_tan sample_pi (Occt.Resolved sample_module) sample_canvas
      OptionsApi (created (Some step_file) (Some [])) = Normal tt st1
    /\ result st1 = Some sample_result
    /\ error st1 = None
    /\ loading st1 = false
    /\ modelGroup st1 = Some {| THREE.children := meshes |}
    /\ Forall2 built_from [triangle] meshes
    /\ List.length meshes = 1%nat.
Proof.
  exact (@successful_import sample_tan sample_pi sample_canvas OptionsApi
           (created (Some step_file) (Some [])) [] step_file sample_module
           Occt.ReadStepFile sample_result [broken; triangle; broken]
           eq_refl eq_refl eq_refl eq_refl eq_refl eq_refl eq_refl).
Defined.

(** X21. Selecting another file releases what the view shows: after a
    [renderModel], [handleFileUpload] disposes the geometry and the material
    of every mesh of the model group, each exactly once and in order, records
    nothing else, and leaves the group empty while the scene, the camera and
    the renderer stay. *)
Theorem new_selection_releases_shown (tan : Q -> Q) (pi : Q) (v : Variant)
  (r : Occt.ImportResult) (records : list Occt.MeshRecord) (files : list DOM.File)
  (st : State) :
  can_render st = true ->
  Occt.meshes r = Some records ->
  exists st1 shown,
    renderModel tan pi v (Some r) st = Normal tt st1
    /\ modelGroup st1 = Some {| THREE.children := shown |}
    /\ trace (fst (handleFileUpload files st1))
       = trace st1 ++ flat_map dispose_object shown
    /\ modelGroup (fst (handleFileUpload files st1)) = Some {| THREE.children := [] |}
    /\ live (fst (handleFileUpload files st1)) = true
    /\ (forall mesh, In mesh shown ->
        exists geo mat,
          THREE.geometry mesh = Some geo
          /\ THREE.material mesh = THREE.OneMaterial mat
          /\ count (releases_geometry (THREE.geometry_id geo))
               (flat_map dispose_object shown) = 1%nat
          /\ count (releases_material (THREE.material_id mat))
               (flat_map dispose_object shown) = 1%nat)
    /\ count is_geometry_release (flat_map dispose_object shown) = List.length shown
    /\ count is_material_release (flat_map dispose_object shown) = List.length shown.
Proof.
  intros Hcan Hmeshes.
  destruct (prepared_ready st Hcan) as (cam & Hgroup & Hcam & _).
  pose proof (@renderModel_spec tan pi v r records cam st Hcan Hcam Hgroup Hmeshes)
    as Hrun.
  destruct (rendered_fields tan pi v records cam st) as (Hg & _).
  assert (Hlive : live (rendered tan pi v records cam st) = true).
  { pose proof (renderModel_live tan pi v (Some r) st Hcan) as H.
    now rewrite Hrun in H. }
  set (st1 := rendered tan pi v records cam st) in *.
  exists st1, (materialized (next_id (prepared st)) records).
  split; [exact Hrun|]. split; [exact Hg|].
  unfold handleFileUpload. simpl. rewrite clearModel_form.
  unfold cleared_events, cleared_group. simpl. rewrite Hg.
  split; [reflexivity|]. split; [reflexivity|].
  split.
  { unfold live in *. simpl.
    destruct (scene st1), (camera st1), (renderer st1); simpl in *;
      try discriminate; reflexivity. }
  split; [apply releases_once|]. split; apply releases_total.
Qed.

Lemma new_selection_releases_shown_witness :
  exists st1 shown,
    renderModel sample_tan sample_pi ScriptSetup (Some sample_result)
      (mounted (Some step_file) (Some [])) = Normal tt st1
    /\ modelGroup st1 = Some {| THREE.children := shown |}
    /\ trace (fst (handleFileUpload [text_file] st1))
       = trace st1 ++ flat_map dispose_object shown.
Proof.
  destruct (@new_selection_releases_shown sample_tan sample_pi ScriptSetup
              sample_result [broken; triangle; broken] [text_file]
              (mounted (Some step_file) (Some [])) eq_refl eq_refl)
    as (st1 & shown & H1 & H2 & H3 & _).
  exists st1, shown. split; [exact H1|]. split; [exact H2 | exact H3].
Defined.
